(** * Traffic-Light-Controller: a shallow embedding of [TrafficSignal.c]

    The program maps the BCM2836 GPIO register block, configures three
    output pins and one input pin, runs one scripted light sequence and
    switches everything off.  The embedding below follows the C source
    function by function.  Register accesses, sleeps, system calls and
    printed lines are recorded as an event trace, so that statements
    about "every write" or "every instant" become statements about the
    trace and its prefixes. *)

From Stdlib Require Import ZArith List String Ascii Bool Lia.
Import ListNotations.
Open Scope string_scope.
Open Scope list_scope.
Open Scope Z_scope.

(** ** Binary literals

    The source spells its masks as GCC binary literals ([0b1000...]).
    [of_bin] reads such a literal, so the constants below can be checked
    against the source digit by digit. *)

Fixpoint bin_digits (s : string) (acc : Z) : Z :=
  match s with
  | EmptyString => acc
  | String c rest =>
      bin_digits rest (2 * acc + (if Ascii.eqb c "1"%char then 1 else 0))
  end.

Definition of_bin (lit : string) : Z :=
  match lit with
  | String "0"%char (String "b"%char digits) => bin_digits digits 0
  | _ => 0
  end.

(** ** Machine integers *)

(** [unsigned int]: 32 bits. *)
Definition u32 (z : Z) : Z := z mod 2 ^ 32.

(** [int]: 32 bits, two's complement. *)
Definition INT_MAX : Z := 2 ^ 31 - 1.
Definition wrap_int (z : Z) : Z := (z + 2 ^ 31) mod 2 ^ 32 - 2 ^ 31.
Definition int_mul (a b : Z) : Z := wrap_int (a * b).

(** ** Constants of the source *)

(* GPIO register base address for RPi2 *)
Definition BCM2708_PERI_BASE : Z := 0x3F000000.
Definition GPIO_BASE : Z := BCM2708_PERI_BASE + 0x200000.
Definition PAGE_SIZE : Z := 4 * 1024.
Definition BLOCK_SIZE : Z := 4 * 1024.

(* GPIO pin definitions (BCM numbering) *)
Definition RED_LED : Z := 10.
Definition YELLOW_LED : Z := 11.
Definition GREEN_LED : Z := 13.
Definition BUTTON : Z := 26.

(* Timing definitions (in seconds) *)
Definition RED_DURATION : Z := 3.
Definition RED_YELLOW_DURATION : Z := 2.
Definition GREEN_DURATION : Z := 5.
Definition YELLOW_BLINK_COUNT : Z := 3.
Definition YELLOW_BLINK_DELAY : Z := 500000.

(* GPIO register offsets (in words) *)
Definition GPFSEL0 : Z := 0.
Definition GPFSEL1 : Z := 1.
Definition GPFSEL2 : Z := 2.
Definition GPSET0 : Z := 7.
Definition GPCLR0 : Z := 10.
Definition GPLEV0 : Z := 13.

(* Bit masks as literals *)
Definition PIN10_MASK : Z := of_bin "0b10000000000".
Definition PIN11_MASK : Z := of_bin "0b100000000000".
Definition PIN13_MASK : Z := of_bin "0b10000000000000".
Definition PIN26_MASK : Z := of_bin "0b100000000000000000000000000".

(** ** Events, state and the environment *)

Inductive event : Type :=
| EPrintf (fmt : string) (args : list Z)
| EOpen (path : string) (fd : Z)
| EMmap (size fd offset : Z) (ok : bool)
| EClose (fd : Z)
| ERead (offset value : Z)
| EWrite (offset value : Z)
| ESleep (seconds : Z)
| EUsleep (microseconds : Z).

(** What the program cannot decide: the results of [open] and [mmap],
    and the level word [GPLEV0] shows at each moment (in microseconds
    of simulated time). *)
Record world : Type := mkWorld {
  open_result : Z;
  mmap_ok : bool;
  level : Z -> Z
}.

(** The register block (word offset to word) and the simulated clock in
    microseconds; only [sleep] and [usleep] advance the clock. *)
Record state : Type := mkState {
  regs : Z -> Z;
  clock : Z
}.

Record result (A : Type) : Type := mkResult {
  val : A;
  st : state;
  out : list event
}.
Arguments mkResult {A} _ _ _.
Arguments val {A} _.
Arguments st {A} _.
Arguments out {A} _.

Definition M (A : Type) : Type := state -> result A.

Definition ret {A : Type} (a : A) : M A :=
  fun s => mkResult a s [].

Definition bind {A B : Type} (c : M A) (k : A -> M B) : M B :=
  fun s =>
    let r1 := c s in
    let r2 := k (val r1) (st r1) in
    mkResult (val r2) (st r2) (out r1 ++ out r2).

Declare Scope prog_scope.
Delimit Scope prog_scope with prog.
Notation "x <- c ;; k" := (bind c (fun x => k))
  (at level 61, c at next level, right associativity) : prog_scope.
Notation "c ;; k" := (bind c (fun _ => k))
  (at level 61, right associativity) : prog_scope.
Open Scope prog_scope.

Definition emit (e : event) : M unit :=
  fun s => mkResult tt s [e].

Definition printf (fmt : string) (args : list Z) : M unit :=
  emit (EPrintf fmt args).

Definition advance (us : Z) (s : state) : state :=
  mkState (regs s) (clock s + us).

Definition sleep (seconds : Z) : M unit :=
  fun s => mkResult tt (advance (seconds * 1000000) s) [ESleep seconds].

Definition usleep (us : Z) : M unit :=
  fun s => mkResult tt (advance us s) [EUsleep us].

Definition update (f : Z -> Z) (k v : Z) : Z -> Z :=
  fun k' => if k' =? k then v else f k'.

(** [*(gpio + offset) = value] *)
Definition store (offset value : Z) : M unit :=
  fun s =>
    mkResult tt (mkState (update (regs s) offset value) (clock s))
             [EWrite offset value].

Section Program.

Variable W : world.

(** [*(gpio + offset)]: a volatile 32-bit load.  The level register
    shows the pins, which the environment drives; every other word
    reads back what the block holds. *)
Definition load (offset : Z) : M Z :=
  fun s =>
    let v := u32 (if offset =? GPLEV0 then level W (clock s)
                  else regs s offset) in
    mkResult v s [ERead offset v].

Definition sys_open (path : string) : M Z :=
  fun s => mkResult (open_result W) s [EOpen path (open_result W)].

Definition sys_mmap (size fd offset : Z) : M bool :=
  fun s => mkResult (mmap_ok W) s [EMmap size fd offset (mmap_ok W)].

Definition sys_close (fd : Z) : M unit :=
  emit (EClose fd).

(** ** The functions of [TrafficSignal.c] *)

(** [int setup_gpio()].  The global pointer [gpio] is assigned on the
    last line of the success path only; every dereference of it in the
    program happens after [main] has checked the result. *)
Definition setup_gpio : M Z :=
  mem_fd <- sys_open "/dev/mem" ;;
  if mem_fd <? 0 then
    printf "Error: can't open /dev/mem (try running with sudo)\n" [] ;;
    ret (-1)
  else
    mapped <- sys_mmap BLOCK_SIZE mem_fd GPIO_BASE ;;
    sys_close mem_fd ;;
    if negb mapped then
      printf "Error: mmap failed\n" [] ;;
      ret (-1)
    else
      ret 0.

(** [void init_gpio()] *)
Definition init_gpio : M unit :=
  current_val <- load GPFSEL1 ;;
  let current_val :=
    Z.land current_val (of_bin "0b11111111111111111111000000000000") in
  let current_val :=
    Z.lor current_val (of_bin "0b00000000000000000000001001001001") in
  store GPFSEL1 current_val ;;
  current_val <- load GPFSEL2 ;;
  let current_val :=
    Z.land current_val (of_bin "0b11111111111000111111111111111111") in
  store GPFSEL2 current_val ;;
  store GPCLR0 PIN13_MASK ;;
  store GPCLR0 PIN11_MASK ;;
  store GPCLR0 PIN10_MASK.

Definition red_on : M unit := store GPSET0 PIN10_MASK.
Definition red_off : M unit := store GPCLR0 PIN10_MASK.
Definition yellow_on : M unit := store GPSET0 PIN11_MASK.
Definition yellow_off : M unit := store GPCLR0 PIN11_MASK.
Definition green_on : M unit := store GPSET0 PIN13_MASK.
Definition green_off : M unit := store GPCLR0 PIN13_MASK.

(** The value of [(level & PIN26_MASK) == 0] as a C [int]. *)
Definition button_test (level : Z) : Z :=
  if Z.land level PIN26_MASK =? 0 then 1 else 0.

(** [int button_pressed()] *)
Definition button_pressed : M Z :=
  level <- load GPLEV0 ;;
  ret (button_test level).

(** The loop of [wait_for_button_or_timeout] together with the line
    that follows it.  The body never mentions the counter [i], so the
    recursion is on the number of iterations the loop condition still
    allows; [remaining = 0] is the loop exit, which falls through to
    the "Timeout" line, and the pressed branch is the early [return]. *)
Fixpoint wait_loop (remaining : nat) : M unit :=
  match remaining with
  | O => printf "Timeout - changing lights...\n" []
  | S remaining' =>
      pressed <- button_pressed ;;
      if pressed =? 0 then
        usleep 100000 ;;
        wait_loop remaining'
      else
        printf "Button pressed! Changing lights...\n" [] ;;
        usleep 300000
  end.

(** [void wait_for_button_or_timeout(int timeout_seconds)]:
    [for (int i = 0; i < timeout_seconds * 10; i++)] runs its body at
    most [max (timeout_seconds * 10) 0] times. *)
Definition wait_for_button_or_timeout (timeout_seconds : Z) : M unit :=
  printf "Waiting for pedestrian button or timeout (%d seconds)...\n"
         [timeout_seconds] ;;
  wait_loop (Z.to_nat (int_mul timeout_seconds 10)).

(** [for (int i = 0; i < count; i++) body], for a body that does not
    mention [i] and does not leave the loop early. *)
Fixpoint repeat_body (count : nat) (body : M unit) : M unit :=
  match count with
  | O => ret tt
  | S count' => body ;; repeat_body count' body
  end.

(** The seven blocks of [traffic_light_sequence], named after the
    comments that introduce them in the source. *)

Definition phase1 : M unit :=
  printf "Phase 1: RED ON (STOP)\n" [] ;;
  store GPSET0 PIN10_MASK ;;
  store GPCLR0 PIN11_MASK ;;
  store GPCLR0 PIN13_MASK ;;
  sleep RED_DURATION.

Definition phase2 : M unit :=
  printf "Phase 2: RED + YELLOW ON (ATTENTION - PREPARE TO GO)\n" [] ;;
  store GPSET0 PIN10_MASK ;;
  store GPSET0 PIN11_MASK ;;
  store GPCLR0 PIN13_MASK ;;
  sleep RED_YELLOW_DURATION.

Definition phase3 : M unit :=
  printf "Phase 3: GREEN ON (GO)\n" [] ;;
  store GPCLR0 PIN10_MASK ;;
  store GPCLR0 PIN11_MASK ;;
  store GPSET0 PIN13_MASK ;;
  sleep GREEN_DURATION.

Definition phase4_leds : M unit :=
  store GPCLR0 PIN10_MASK ;;
  store GPCLR0 PIN11_MASK ;;
  store GPSET0 PIN13_MASK.

Definition phase4 : M unit :=
  phase4_leds ;;
  wait_for_button_or_timeout 5.

Definition phase5 : M unit :=
  printf "Phase 5: GREEN ON (CONTINUE GO)\n" [] ;;
  store GPCLR0 PIN10_MASK ;;
  store GPCLR0 PIN11_MASK ;;
  store GPSET0 PIN13_MASK ;;
  sleep 2.

Definition blink : M unit :=
  store GPSET0 PIN11_MASK ;;
  usleep YELLOW_BLINK_DELAY ;;
  store GPCLR0 PIN11_MASK ;;
  usleep YELLOW_BLINK_DELAY.

Definition phase6 : M unit :=
  printf "Phase 6: YELLOW BLINKING (ATTENTION - PREPARE TO STOP)\n" [] ;;
  store GPCLR0 PIN10_MASK ;;
  store GPCLR0 PIN13_MASK ;;
  repeat_body (Z.to_nat YELLOW_BLINK_COUNT) blink.

Definition phase7 : M unit :=
  printf "Phase 7: RED ON (STOP)\n" [] ;;
  store GPSET0 PIN10_MASK ;;
  store GPCLR0 PIN11_MASK ;;
  store GPCLR0 PIN13_MASK ;;
  sleep RED_DURATION.

(** [void traffic_light_sequence()] *)
Definition traffic_light_sequence : M unit :=
  printf "\n=== Traffic Light Sequence Starting ===\n\n" [] ;;
  phase1 ;;
  phase2 ;;
  phase3 ;;
  phase4 ;;
  phase5 ;;
  phase6 ;;
  phase7 ;;
  printf "\n=== Sequence Complete ===\n\n" [].

(** The last block of [main]: "Turn off all LEDs". *)
Definition all_off : M unit :=
  store GPCLR0 PIN10_MASK ;;
  store GPCLR0 PIN11_MASK ;;
  store GPCLR0 PIN13_MASK.

(** [int main(int argc, char **argv)] *)
Definition main (argc : Z) (argv : list string) : M Z :=
  printf "Traffic Lights Control - F28HS Lab Week 5\n" [] ;;
  printf "==========================================\n\n" [] ;;
  status <- setup_gpio ;;
  if status =? -1 then
    ret 1
  else
    init_gpio ;;
    printf "GPIO initialized successfully.\n" [] ;;
    printf "Red LED: GPIO 10 (BCM)\n" [] ;;
    printf "Yellow LED: GPIO 11 (BCM)\n" [] ;;
    printf "Green LED: GPIO 13 (BCM)\n" [] ;;
    printf "Button (optional): GPIO 26 (BCM)\n\n" [] ;;
    traffic_light_sequence ;;
    all_off ;;
    printf "Program finished. All LEDs turned off.\n" [] ;;
    ret 0.

End Program.

(** ** Observations on a run *)

(** Simulated time an event takes, in microseconds. *)
Definition duration (e : event) : Z :=
  match e with
  | ESleep seconds => seconds * 1000000
  | EUsleep us => us
  | _ => 0
  end.

Definition elapsed (tr : list event) : Z :=
  fold_right (fun e acc => duration e + acc) 0 tr.

Definition is_write (e : event) : bool :=
  match e with EWrite _ _ => true | _ => false end.

Definition is_poll (e : event) : bool :=
  match e with ERead offset _ => offset =? GPLEV0 | _ => false end.

(** Number of reads of the level register. *)
Definition polls (tr : list event) : Z :=
  Z.of_nat (List.length (filter is_poll tr)).

(** The moments at which the level register is read, for a trace that
    starts at time [t]. *)
Fixpoint poll_times (t : Z) (tr : list event) : list Z :=
  match tr with
  | [] => []
  | e :: tr' =>
      (if is_poll e then [t] else []) ++ poll_times (t + duration e) tr'
  end.

Definition is_printf (fmt : string) (e : event) : bool :=
  match e with EPrintf f _ => String.eqb f fmt | _ => false end.

Definition occurrences (fmt : string) (tr : list event) : nat :=
  List.length (filter (is_printf fmt) tr).

(** The lines that announce the sequence and its phases, in program
    order (phase 4 has no line of its own; the wait it starts has). *)
Definition sequence_labels : list string :=
  ["\n=== Traffic Light Sequence Starting ===\n\n";
   "Phase 1: RED ON (STOP)\n";
   "Phase 2: RED + YELLOW ON (ATTENTION - PREPARE TO GO)\n";
   "Phase 3: GREEN ON (GO)\n";
   "Waiting for pedestrian button or timeout (%d seconds)...\n";
   "Phase 5: GREEN ON (CONTINUE GO)\n";
   "Phase 6: YELLOW BLINKING (ATTENTION - PREPARE TO STOP)\n";
   "Phase 7: RED ON (STOP)\n";
   "\n=== Sequence Complete ===\n\n"].

(** Number of writes of [value] to the register at [offset]. *)
Definition count_writes (offset value : Z) (tr : list event) : nat :=
  List.length
    (filter (fun e => match e with
                      | EWrite o v => (o =? offset) && (v =? value)
                      | _ => false
                      end) tr).

(** The button reads pressed at time [t]: what [button_pressed] would
    return there. *)
Definition pressed_at (W : world) (t : Z) : bool :=
  negb (button_test (u32 (level W t)) =? 0).

(** ** The output latch of the GPIO controller

    A write to [GPSET0] drives high the pins whose bit is 1 in the
    written word, a write to [GPCLR0] drives those pins low, and bits
    that are 0 leave their pin alone.  [pins] is the word of output
    levels, one bit per pin. *)
Definition pin_effect (e : event) (pins : Z) : Z :=
  match e with
  | EWrite offset value =>
      if offset =? GPSET0 then Z.lor pins value
      else if offset =? GPCLR0 then Z.ldiff pins value
      else pins
  | _ => pins
  end.

Definition pins_after (pins : Z) (tr : list event) : Z :=
  fold_left (fun p e => pin_effect e p) tr pins.

Record leds : Type := mkLeds {
  red : bool;
  yellow : bool;
  green : bool
}.

Definition leds_of (pins : Z) : leds :=
  mkLeds (Z.testbit pins RED_LED)
         (Z.testbit pins YELLOW_LED)
         (Z.testbit pins GREEN_LED).

Definition leds_eqb (a b : leds) : bool :=
  Bool.eqb (red a) (red b) && Bool.eqb (yellow a) (yellow b)
  && Bool.eqb (green a) (green b).

(** Every LED lit in [a] is lit in [b]. *)
Definition at_most (a b : leds) : bool :=
  implb (red a) (red b) && implb (yellow a) (yellow b)
  && implb (green a) (green b).

(** The LED state right after each register write of a trace. *)
Fixpoint write_states (pins : Z) (tr : list event) : list leds :=
  match tr with
  | [] => []
  | e :: tr' =>
      let pins' := pin_effect e pins in
      (if is_write e then [leds_of pins'] else [])
        ++ write_states pins' tr'
  end.

(** ** Phases *)

Inductive phase : Type :=
| Phase1 | Phase2 | Phase3 | Phase4 | Phase5 | Phase6 | Phase7.

Definition phase_body (W : world) (p : phase) : M unit :=
  match p with
  | Phase1 => phase1
  | Phase2 => phase2
  | Phase3 => phase3
  | Phase4 => phase4 W
  | Phase5 => phase5
  | Phase6 => phase6
  | Phase7 => phase7
  end.

Definition all_phases : list phase :=
  [Phase1; Phase2; Phase3; Phase4; Phase5; Phase6; Phase7].

Fixpoint run_phases (W : world) (ps : list phase) : M unit :=
  match ps with
  | [] => ret tt
  | p :: ps' => phase_body W p ;; run_phases W ps'
  end.

(** The phase left when [p] is entered; phase 1 is entered from the
    all-off state [init_gpio] leaves. *)
Definition previous (p : phase) : phase :=
  match p with
  | Phase1 => Phase1
  | Phase2 => Phase1
  | Phase3 => Phase2
  | Phase4 => Phase3
  | Phase5 => Phase4
  | Phase6 => Phase5
  | Phase7 => Phase6
  end.

(** The LED combination the specification documents for each phase
    (phase 6 toggles yellow with red and green off, so yellow is the
    most that may be lit). *)
Definition documented (p : phase) : leds :=
  match p with
  | Phase1 => mkLeds true false false
  | Phase2 => mkLeds true true false
  | Phase3 => mkLeds false false true
  | Phase4 => mkLeds false false true
  | Phase5 => mkLeds false false true
  | Phase6 => mkLeds false true false
  | Phase7 => mkLeds true false false
  end.

(** Every instant of the phases [ps]: the phase and the LED state after
    each of its register writes, with the latch and the program state
    threaded from one phase to the next. *)
Fixpoint instants (W : world) (ps : list phase) (pins : Z) (s : state)
  : list (phase * leds) :=
  match ps with
  | [] => []
  | p :: ps' =>
      let r := phase_body W p s in
      map (pair p) (write_states pins (out r))
        ++ instants W ps' (pins_after pins (out r)) (st r)
  end.

(** The instants of the sequence as [main] runs it: after [init_gpio],
    from a latch holding [pins0] and a program state [s0]. *)
Definition sequence_instants (W : world) (pins0 : Z) (s0 : state)
  : list (phase * leds) :=
  let r := init_gpio W s0 in
  instants W all_phases (pins_after pins0 (out r)) (st r).

Definition phase_eqb (p q : phase) : bool :=
  match p, q with
  | Phase1, Phase1 | Phase2, Phase2 | Phase3, Phase3 | Phase4, Phase4
  | Phase5, Phase5 | Phase6, Phase6 | Phase7, Phase7 => true
  | _, _ => false
  end.

(** The LED state a phase holds once its writes are done. *)
Definition settled (p : phase) (l : list (phase * leds)) : option leds :=
  last (map (fun x => Some (snd x))
            (filter (fun x => phase_eqb (fst x) p) l)) None.

(** Number of changes along a history of one bit that starts at [b]. *)
Fixpoint flips (b : bool) (history : list bool) : nat :=
  match history with
  | [] => O
  | b' :: rest => ((if Bool.eqb b b' then 0 else 1) + flips b' rest)%nat
  end.

(** ** Function-select fields

    Three bits per pin, ten pins per word: pin 10 sits in bits 0-2 of
    [GPFSEL1], pin 11 in bits 3-5, pin 12 in bits 6-8, pin 13 in bits
    9-11, and pin 26 in bits 18-20 of [GPFSEL2]. *)
Definition fsel_word (pin : Z) : Z := pin / 10.

Definition fsel_field (pin word : Z) : Z :=
  Z.land (Z.shiftr word ((pin mod 10) * 3)) 7.

Definition FSEL_INPUT : Z := 0.
Definition FSEL_OUTPUT : Z := 1.

(** ** The sequence around the button wait *)

Definition sequence_until_wait : M unit :=
  printf "\n=== Traffic Light Sequence Starting ===\n\n" [] ;;
  phase1 ;;
  phase2 ;;
  phase3 ;;
  phase4_leds.

(** The call [wait_for_button_or_timeout(5)] of a run of the sequence
    that starts in [s]. *)
Definition button_wait (W : world) (s : state) : result unit :=
  wait_for_button_or_timeout W 5 (st (sequence_until_wait s)).

Definition sequence_after_wait : M unit :=
  phase5 ;;
  phase6 ;;
  phase7 ;;
  printf "\n=== Sequence Complete ===\n\n" [].

(** A write to the set or clear register carries the mask of exactly
    one of the three LED pins. *)
Definition led_write_ok (e : event) : bool :=
  match e with
  | EWrite offset value =>
      if (offset =? GPSET0) || (offset =? GPCLR0) then
        (value =? Z.shiftl 1 RED_LED) || (value =? Z.shiftl 1 YELLOW_LED)
        || (value =? Z.shiftl 1 GREEN_LED)
      else true
  | _ => true
  end.

(** The six LED helpers of the source; the sequence writes the
    registers inline and calls none of them. *)
Definition led_helpers : list (M unit) :=
  [red_on; red_off; yellow_on; yellow_off; green_on; green_off].

(** ** Concrete environments and states *)

(** A register block of zeros (every pin an input) at time 0. *)
Definition boot_state : state := mkState (fun _ => 0) 0.

(** Pin 26 is pulled up and nobody touches the button. *)
Definition idle_world : world :=
  mkWorld 3 true (fun _ => PIN26_MASK).

(** The button goes down at time [t] (microseconds) and stays down. *)
Definition press_world (t : Z) : world :=
  mkWorld 3 true (fun now => if now <? t then PIN26_MASK else 0).

(** [open] fails. *)
Definition no_device_world : world :=
  mkWorld (-1) true (fun _ => PIN26_MASK).

(** [open] succeeds and [mmap] fails. *)
Definition no_mapping_world : world :=
  mkWorld 3 false (fun _ => PIN26_MASK).

(** ** The three LED bits of the latch, on their own

    [led_effect] is [pin_effect] seen through [leds_of]; the lemmas
    below show that the two agree, so that the LED history of a run
    can be computed on three booleans. *)
Definition led_effect (e : event) (l : leds) : leds :=
  match e with
  | EWrite offset value =>
      let m := leds_of value in
      if offset =? GPSET0 then
        mkLeds (red l || red m) (yellow l || yellow m) (green l || green m)
      else if offset =? GPCLR0 then
        mkLeds (red l && negb (red m)) (yellow l && negb (yellow m))
               (green l && negb (green m))
      else l
  | _ => l
  end.

Definition leds_after (l : leds) (tr : list event) : leds :=
  fold_left (fun l e => led_effect e l) tr l.

Fixpoint led_states (l : leds) (tr : list event) : list leds :=
  match tr with
  | [] => []
  | e :: tr' =>
      let l' := led_effect e l in
      (if is_write e then [l'] else []) ++ led_states l' tr'
  end.

(** The register writes of a phase; they are the same in every run. *)
Definition phase_writes (p : phase) : list event :=
  filter is_write (out (phase_body idle_world p boot_state)).

Fixpoint led_instants (ps : list phase) (l : leds) : list (phase * leds) :=
  match ps with
  | [] => []
  | p :: ps' =>
      map (pair p) (led_states l (phase_writes p))
        ++ led_instants ps' (leds_after l (phase_writes p))
  end.

Definition off : leds := mkLeds false false false.
Definition only_red : leds := mkLeds true false false.
Definition red_yellow : leds := mkLeds true true false.
Definition only_yellow : leds := mkLeds false true false.
Definition only_green : leds := mkLeds false false true.

(** ** Further observations *)

(** The word offsets of the register accesses of a trace, reads and
    writes alike, in order. *)
Definition accessed (tr : list event) : list Z :=
  flat_map (fun e => match e with
                     | ERead offset _ => [offset]
                     | EWrite offset _ => [offset]
                     | _ => []
                     end) tr.

Definition is_read (e : event) : bool :=
  match e with ERead _ _ => true | _ => false end.

(** The descriptors a trace closes, in order. *)
Definition closed (tr : list event) : list Z :=
  flat_map (fun e => match e with EClose fd => [fd] | _ => [] end) tr.

(** The writes of a trace that go to the set or the clear register. *)
Definition is_pin_write (e : event) : bool :=
  match e with
  | EWrite offset _ => (offset =? GPSET0) || (offset =? GPCLR0)
  | _ => false
  end.

(** Number of 32-bit words in the mapped block. *)
Definition BLOCK_WORDS : Z := BLOCK_SIZE / 4.

(** A register access of the program: one of the five offsets the
    source names, inside the mapped block. *)
Definition access_ok (e : event) : bool :=
  match e with
  | ERead offset _ | EWrite offset _ =>
      ((offset =? GPFSEL1) || (offset =? GPFSEL2) || (offset =? GPSET0)
       || (offset =? GPCLR0) || (offset =? GPLEV0))
      && (0 <=? offset) && (offset <? BLOCK_WORDS)
  | _ => true
  end.

Definition is_led_pin (pin : Z) : bool :=
  (pin =? RED_LED) || (pin =? YELLOW_LED) || (pin =? GREEN_LED).

Definition INT_MIN : Z := - 2 ^ 31.

(** A register block in which every word is all ones, at time 0. *)
Definition full_block : state := mkState (fun _ => 0xFFFFFFFF) 0.

(** * Proofs *)

(** ** Bits *)

Lemma land_pow2 (a n : Z) :
  0 <= n -> Z.land a (2 ^ n) = if Z.testbit a n then 2 ^ n else 0.
Proof.
  intros Hn. apply Z.bits_inj'. intros k Hk.
  rewrite Z.land_spec, Z.pow2_bits_eqb by assumption.
  destruct (Z.eqb_spec n k) as [->|Hne].
  - rewrite andb_true_r. destruct (Z.testbit a k) eqn:E.
    + rewrite Z.pow2_bits_true; auto.
    + now rewrite Z.bits_0.
  - rewrite andb_false_r. destruct (Z.testbit a n).
    + rewrite Z.pow2_bits_false; auto.
    + now rewrite Z.bits_0.
Qed.

Lemma u32_testbit (z i : Z) :
  0 <= i < 32 -> Z.testbit (u32 z) i = Z.testbit z i.
Proof. intros Hi. unfold u32. apply Z.mod_pow2_bits_low. lia. Qed.

(** Two bit patterns that agree on the 32 positions a check visits
    agree on every position below 32. *)
Lemma bits_below_32 (f g : Z -> bool) :
  forallb (fun n => Bool.eqb (f (Z.of_nat n)) (g (Z.of_nat n))) (seq 0 32)
  = true ->
  forall i, 0 <= i < 32 -> f i = g i.
Proof.
  intros H i Hi. rewrite forallb_forall in H.
  specialize (H (Z.to_nat i)).
  rewrite Z2Nat.id in H by lia.
  apply eqb_prop, H, in_seq. lia.
Qed.

Lemma field_bits (w k : Z) :
  0 <= k ->
  Z.land (Z.shiftr w k) 7 =
  Z.b2z (Z.testbit w k) + 2 * Z.b2z (Z.testbit w (k + 1))
  + 4 * Z.b2z (Z.testbit w (k + 2)).
Proof.
  intros Hk. apply Z.bits_inj'. intros n Hn.
  rewrite Z.land_spec, Z.shiftr_spec by assumption.
  assert (Hc : n = 0 \/ n = 1 \/ n = 2 \/ 3 <= n) by lia.
  destruct Hc as [->|[->|[->|Hge]]].
  - rewrite Z.add_0_l.
    destruct (Z.testbit w k), (Z.testbit w (k + 1)), (Z.testbit w (k + 2));
      reflexivity.
  - rewrite (Z.add_comm 1 k).
    destruct (Z.testbit w k), (Z.testbit w (k + 1)), (Z.testbit w (k + 2));
      reflexivity.
  - rewrite (Z.add_comm 2 k).
    destruct (Z.testbit w k), (Z.testbit w (k + 1)), (Z.testbit w (k + 2));
      reflexivity.
  - replace (Z.testbit 7 n) with false.
    2:{ symmetry. apply (Z.bits_above_log2 7 n); [lia|].
        change (Z.log2 7) with 2. lia. }
    rewrite andb_false_r. symmetry.
    set (c := _ + _ + _).
    assert (0 <= c < 8)
      by (subst c; destruct (Z.testbit w k), (Z.testbit w (k + 1)),
            (Z.testbit w (k + 2)); cbn; lia).
    destruct (Z.eq_dec c 0) as [->|]; [apply Z.bits_0|].
    apply Z.bits_above_log2; [lia|].
    assert (Z.log2 c < 3) by (apply Z.log2_lt_pow2; lia). lia.
Qed.

(** ** The button *)

Lemma button_test_bit (lv : Z) :
  button_test lv = if Z.testbit lv BUTTON then 0 else 1.
Proof.
  unfold button_test, BUTTON. change PIN26_MASK with (2 ^ 26).
  rewrite land_pow2 by lia. destruct (Z.testbit lv 26); reflexivity.
Qed.

(** C7: [button_pressed] returns the value of
    [(level & (1 << 26)) == 0] for the level word it reads, and for
    every level word that value is 1 exactly when bit 26 is 0 and 0
    exactly when bit 26 is 1 (active low).  The call reads the level
    register once and changes nothing. *)
Theorem button_pressed_active_low :
  forall (W : world) (s : state),
    let lv := u32 (level W (clock s)) in
    val (button_pressed W s)
      = (if Z.land lv (Z.shiftl 1 26) =? 0 then 1 else 0)
    /\ out (button_pressed W s) = [ERead GPLEV0 lv]
    /\ st (button_pressed W s) = s
    /\ Z.testbit lv 26 = Z.testbit (level W (clock s)) 26
    /\ forall level_word : Z,
         button_test level_word
           = (if Z.land level_word (Z.shiftl 1 26) =? 0 then 1 else 0)
         /\ (button_test level_word = 1
             <-> Z.testbit level_word 26 = false)
         /\ (button_test level_word = 0
             <-> Z.testbit level_word 26 = true).
Proof.
  intros W s lv. repeat split; try reflexivity.
  - subst lv. apply u32_testbit. lia.
  - rewrite button_test_bit. unfold BUTTON.
    destruct (Z.testbit level_word 26); [discriminate|reflexivity].
  - rewrite button_test_bit. unfold BUTTON. intros ->. reflexivity.
  - rewrite button_test_bit. unfold BUTTON.
    destruct (Z.testbit level_word 26); [reflexivity|discriminate].
  - rewrite button_test_bit. unfold BUTTON. intros ->. reflexivity.
Qed.

(** ** Pin configuration *)

Lemma init_gpio_fsel1 (W : world) (s : state) :
  regs (st (init_gpio W s)) GPFSEL1 =
  Z.lor (Z.land (u32 (regs s GPFSEL1)) 4294963200) 585.
Proof. reflexivity. Qed.

Lemma init_gpio_fsel2 (W : world) (s : state) :
  regs (st (init_gpio W s)) GPFSEL2 =
  Z.land (u32 (regs s GPFSEL2)) 4293132287.
Proof. reflexivity. Qed.

Lemma init_gpio_fsel1_bit (W : world) (s : state) (i : Z) :
  0 <= i < 32 ->
  Z.testbit (regs (st (init_gpio W s)) GPFSEL1) i =
  if i <? 12 then Z.testbit 585 i else Z.testbit (regs s GPFSEL1) i.
Proof.
  intros Hi. rewrite init_gpio_fsel1, Z.lor_spec, Z.land_spec.
  rewrite u32_testbit by assumption.
  rewrite (bits_below_32 (Z.testbit 4294963200) (fun i => negb (i <? 12)))
    by (assumption || reflexivity).
  destruct (Z.ltb_spec i 12) as [Hlt|Hge]; cbn [negb].
  - now rewrite andb_false_r.
  - rewrite andb_true_r.
    rewrite (bits_below_32 (Z.testbit 585)
               (fun i => (i <? 12) && Z.testbit 585 i))
      by (assumption || reflexivity).
    destruct (Z.ltb_spec i 12); [lia|]. cbn [andb]. apply orb_false_r.
Qed.

Lemma init_gpio_fsel2_bit (W : world) (s : state) (i : Z) :
  0 <= i < 32 ->
  Z.testbit (regs (st (init_gpio W s)) GPFSEL2) i =
  if (18 <=? i) && (i <=? 20) then false
  else Z.testbit (regs s GPFSEL2) i.
Proof.
  intros Hi. rewrite init_gpio_fsel2, Z.land_spec.
  rewrite u32_testbit by assumption.
  rewrite (bits_below_32 (Z.testbit 4293132287)
             (fun i => negb ((18 <=? i) && (i <=? 20))))
    by (assumption || reflexivity).
  destruct ((18 <=? i) && (i <=? 20)); cbn [negb].
  - apply andb_false_r.
  - apply andb_true_r.
Qed.

(** What [init_gpio] does to the two function-select words, whatever
    they held: pins 10, 11 and 13 become outputs and pin 26 an input;
    bits 12-31 of [GPFSEL1] and every bit of [GPFSEL2] outside 18-20
    keep their value; and the field of pin 12 (bits 6-8 of [GPFSEL1])
    is set to output as well. *)
Theorem init_gpio_function_select :
  forall (W : world) (s : state),
    let after := regs (st (init_gpio W s)) in
    fsel_field RED_LED (after GPFSEL1) = FSEL_OUTPUT
    /\ fsel_field YELLOW_LED (after GPFSEL1) = FSEL_OUTPUT
    /\ fsel_field GREEN_LED (after GPFSEL1) = FSEL_OUTPUT
    /\ fsel_field BUTTON (after GPFSEL2) = FSEL_INPUT
    /\ (forall i, 12 <= i < 32 ->
          Z.testbit (after GPFSEL1) i = Z.testbit (regs s GPFSEL1) i)
    /\ (forall i, 0 <= i < 32 -> ~ 18 <= i <= 20 ->
          Z.testbit (after GPFSEL2) i = Z.testbit (regs s GPFSEL2) i)
    /\ fsel_field 12 (after GPFSEL1) = FSEL_OUTPUT.
Proof.
  intros W s after. subst after. unfold fsel_field.
  repeat split.
  - rewrite field_bits by (cbv; discriminate).
    rewrite !init_gpio_fsel1_bit by (cbv; split; congruence). reflexivity.
  - rewrite field_bits by (cbv; discriminate).
    rewrite !init_gpio_fsel1_bit by (cbv; split; congruence). reflexivity.
  - rewrite field_bits by (cbv; discriminate).
    rewrite !init_gpio_fsel1_bit by (cbv; split; congruence). reflexivity.
  - rewrite field_bits by (cbv; discriminate).
    rewrite !init_gpio_fsel2_bit by (cbv; split; congruence). reflexivity.
  - intros i Hi. rewrite init_gpio_fsel1_bit by lia.
    destruct (Z.ltb_spec i 12); [lia|reflexivity].
  - intros i Hi Hout. rewrite init_gpio_fsel2_bit by lia.
    destruct (Z.leb_spec 18 i), (Z.leb_spec i 20); cbn [andb];
      (lia || reflexivity).
  - rewrite field_bits by (cbv; discriminate).
    rewrite !init_gpio_fsel1_bit by (cbv; split; congruence). reflexivity.
Qed.

(** C1, at the register block of zeros: before [init_gpio] the field of
    pin 12 (bits 6-8 of [GPFSEL1]) is 000; afterwards [GPFSEL1] holds
    0b001001001001, so bit 6 has changed and pin 12 is configured as
    an output, although the source's comments name pins 10, 11 and 13
    only. *)
Theorem init_gpio_overwrites_pin12 :
  let before := regs boot_state GPFSEL1 in
  let after := regs (st (init_gpio idle_world boot_state)) GPFSEL1 in
  fsel_field 12 before = FSEL_INPUT
  /\ fsel_field 12 after = FSEL_OUTPUT
  /\ Z.testbit before 6 = false
  /\ Z.testbit after 6 = true
  /\ after = of_bin "0b001001001001".
Proof. vm_compute. repeat split. Qed.

(** ** Traces *)

Lemma out_bind {A B} (c : M A) (k : A -> M B) s :
  out (bind c k s) = out (c s) ++ out (k (val (c s)) (st (c s))).
Proof. reflexivity. Qed.

Lemma val_bind {A B} (c : M A) (k : A -> M B) s :
  val (bind c k s) = val (k (val (c s)) (st (c s))).
Proof. reflexivity. Qed.

Lemma st_bind {A B} (c : M A) (k : A -> M B) s :
  st (bind c k s) = st (k (val (c s)) (st (c s))).
Proof. reflexivity. Qed.

Lemma result_eta {A} (r : result A) : r = mkResult (val r) (st r) (out r).
Proof. destruct r; reflexivity. Qed.

Lemma elapsed_app (a b : list event) :
  elapsed (a ++ b) = elapsed a + elapsed b.
Proof.
  induction a as [|e a IH]; [reflexivity|].
  change (duration e + elapsed (a ++ b)
          = duration e + elapsed a + elapsed b).
  lia.
Qed.

Lemma elapsed_cons (e : event) (tr : list event) :
  elapsed (e :: tr) = duration e + elapsed tr.
Proof. reflexivity. Qed.

Lemma polls_app (a b : list event) : polls (a ++ b) = polls a + polls b.
Proof. unfold polls. rewrite filter_app, length_app. lia. Qed.

Lemma polls_cons (e : event) (tr : list event) :
  polls (e :: tr) = (if is_poll e then 1 else 0) + polls tr.
Proof.
  unfold polls. cbn [filter].
  destruct (is_poll e); cbn [List.length]; lia.
Qed.

Lemma polls_nonneg (tr : list event) : 0 <= polls tr.
Proof. unfold polls. lia. Qed.

Lemma poll_times_cons (t : Z) (e : event) (tr : list event) :
  poll_times t (e :: tr) =
  (if is_poll e then [t] else []) ++ poll_times (t + duration e) tr.
Proof. reflexivity. Qed.

Lemma poll_times_app (t : Z) (a b : list event) :
  poll_times t (a ++ b) = poll_times t a ++ poll_times (t + elapsed a) b.
Proof.
  revert t; induction a as [|e a IH]; intros t.
  - cbn. now rewrite Z.add_0_r.
  - rewrite <- app_comm_cons, !poll_times_cons, IH, elapsed_cons.
    rewrite <- app_assoc. do 3 f_equal. lia.
Qed.

(** ** The polling loop *)

(** Counts, durations and poll times of the events at the head of a
    trace of the loop. *)
Ltac head_events :=
  rewrite ?polls_cons, ?elapsed_cons, ?poll_times_cons;
  cbn [is_poll duration];
  change (GPLEV0 =? GPLEV0) with true; cbv iota;
  change (polls []) with 0; change (elapsed []) with 0.

Section Wait.

Variable W : world.

(** One turn of the loop. *)
Lemma wait_loop_step (n : nat) (s : state) :
  wait_loop W (S n) s =
  let lv := u32 (level W (clock s)) in
  if pressed_at W (clock s) then
    mkResult tt (advance 300000 s)
      [ERead GPLEV0 lv; EPrintf "Button pressed! Changing lights...\n" [];
       EUsleep 300000]
  else
    let r := wait_loop W n (advance 100000 s) in
    mkResult (val r) (st r) (ERead GPLEV0 lv :: EUsleep 100000 :: out r).
Proof.
  unfold pressed_at. cbn [wait_loop].
  unfold button_pressed, load, ret, bind.
  cbn [val st out]. change (GPLEV0 =? GPLEV0) with true. cbv iota.
  destruct (button_test (u32 (level W (clock s))) =? 0) eqn:E; reflexivity.
Qed.

(** The time of poll [k + 1] counted from [s] is the time of poll [k]
    counted from the state one polling interval later. *)
Lemma next_poll (s : state) (k : Z) :
  clock (advance 100000 s) + 100000 * k = clock s + 100000 * (k + 1).
Proof. cbn [advance clock]. lia. Qed.

Lemma first_poll (s : state) : clock s = clock s + 100000 * 0.
Proof. lia. Qed.

Lemma wait_loop_regs (n : nat) :
  forall s, regs (st (wait_loop W n s)) = regs s.
Proof.
  induction n as [|n IH]; intros s; [reflexivity|].
  rewrite wait_loop_step. cbv zeta.
  destruct (pressed_at W (clock s)); [reflexivity|].
  cbn [st]. now rewrite IH.
Qed.

Lemma wait_loop_clock (n : nat) :
  forall s,
    clock (st (wait_loop W n s))
    = clock s + elapsed (out (wait_loop W n s)).
Proof.
  induction n as [|n IH]; intros s.
  - cbn. lia.
  - rewrite wait_loop_step. cbv zeta.
    destruct (pressed_at W (clock s)); cbn [st out].
    + head_events. cbn [advance clock]. lia.
    + rewrite IH. head_events. cbn [advance clock]. lia.
Qed.

(** The path on which no poll reads pressed. *)
Lemma wait_loop_timeout (n : nat) :
  forall s,
    (forall k, 0 <= k < Z.of_nat n ->
               pressed_at W (clock s + 100000 * k) = false) ->
    polls (out (wait_loop W n s)) = Z.of_nat n
    /\ elapsed (out (wait_loop W n s)) = 100000 * Z.of_nat n.
Proof.
  induction n as [|n IH]; intros s H.
  - split; reflexivity.
  - rewrite wait_loop_step. cbv zeta.
    assert (Hnow : pressed_at W (clock s) = false)
      by (rewrite (first_poll s); apply H; lia).
    rewrite Hnow. cbn [out].
    destruct (IH (advance 100000 s)) as [Hp He].
    { intros k Hk. rewrite next_poll. apply H. lia. }
    head_events. rewrite Hp, He. split; lia.
Qed.

(** The path on which poll [k] is the first to read pressed. *)
Lemma wait_loop_press (n : nat) :
  forall s k,
    0 <= k < Z.of_nat n ->
    (forall j, 0 <= j < k ->
               pressed_at W (clock s + 100000 * j) = false) ->
    pressed_at W (clock s + 100000 * k) = true ->
    polls (out (wait_loop W n s)) = k + 1
    /\ elapsed (out (wait_loop W n s)) = 100000 * k + 300000.
Proof.
  induction n as [|n IH]; intros s k Hk Hbefore Hat; [lia|].
  rewrite wait_loop_step. cbv zeta.
  destruct (Z.eq_dec k 0) as [->|Hne].
  - rewrite <- first_poll in Hat. rewrite Hat. cbn [out].
    head_events. split; lia.
  - assert (Hnow : pressed_at W (clock s) = false)
      by (rewrite (first_poll s); apply Hbefore; lia).
    rewrite Hnow. cbn [out].
    destruct (IH (advance 100000 s) (k - 1)) as [Hp He].
    + lia.
    + intros j Hj. rewrite next_poll. apply Hbefore. lia.
    + rewrite next_poll. now replace (k - 1 + 1) with k by lia.
    + head_events. rewrite Hp, He. split; lia.
Qed.

(** Whatever the button does, the loop takes as long as all its polls
    or as long as the polls before a press plus the settle delay. *)
Lemma wait_loop_elapsed (n : nat) :
  forall s,
    elapsed (out (wait_loop W n s)) = 100000 * Z.of_nat n
    \/ exists k, 0 <= k < Z.of_nat n
         /\ elapsed (out (wait_loop W n s)) = 100000 * k + 300000.
Proof.
  induction n as [|n IH]; intros s.
  - left; reflexivity.
  - rewrite wait_loop_step. cbv zeta.
    destruct (pressed_at W (clock s)); cbn [out].
    + right. exists 0. split; [lia|reflexivity].
    + head_events.
      destruct (IH (advance 100000 s)) as [->|(k & Hk & ->)].
      * left. lia.
      * right. exists (k + 1). split; lia.
Qed.

(** Polls are 0.1 s apart, the first one at once. *)
Lemma wait_loop_poll_times (n : nat) :
  forall s,
    poll_times (clock s) (out (wait_loop W n s)) =
    map (fun k => clock s + 100000 * Z.of_nat k)
        (seq 0 (Z.to_nat (polls (out (wait_loop W n s))))).
Proof.
  induction n as [|n IH]; intros s.
  - reflexivity.
  - rewrite wait_loop_step. cbv zeta.
    destruct (pressed_at W (clock s)); cbn [out].
    + head_events. cbn [poll_times app].
      change (Z.to_nat (1 + (0 + (0 + 0)))) with 1%nat.
      cbn [seq map]. f_equal. change (Z.of_nat 0) with 0. lia.
    + head_events. cbn [app].
      pose proof (polls_nonneg (out (wait_loop W n (advance 100000 s))))
        as Hnn.
      rewrite Z.add_0_l, Z.add_0_r, Z2Nat.inj_add by lia.
      change (Z.to_nat 1) with 1%nat. cbn [Nat.add seq map].
      f_equal; [change (Z.of_nat 0) with 0; lia|].
      change (clock s + 100000) with (clock (advance 100000 s)).
      rewrite IH, <- seq_shift, map_map.
      apply map_ext. intros a. cbn [advance clock]. lia.
Qed.

End Wait.

Lemma wrap_int_small (z : Z) :
  - 2 ^ 31 <= z <= INT_MAX -> wrap_int z = z.
Proof.
  unfold wrap_int, INT_MAX. intros H.
  rewrite Z.mod_small by lia. lia.
Qed.

Lemma wait_for_button_or_timeout_out (W : world) (t : Z) (s : state) :
  out (wait_for_button_or_timeout W t s) =
  EPrintf "Waiting for pedestrian button or timeout (%d seconds)...\n" [t]
  :: out (wait_loop W (Z.to_nat (int_mul t 10)) s).
Proof. reflexivity. Qed.

Lemma wait_for_button_or_timeout_st (W : world) (t : Z) (s : state) :
  st (wait_for_button_or_timeout W t s) =
  st (wait_loop W (Z.to_nat (int_mul t 10)) s).
Proof. reflexivity. Qed.

(** *** Which line the wait prints *)

Lemma occurrences_cons_other (fmt : string) (e : event)
      (tr : list event) :
  is_printf fmt e = false ->
  occurrences fmt (e :: tr) = occurrences fmt tr.
Proof. intros H. unfold occurrences. cbn [filter]. now rewrite H. Qed.

Section WaitLines.

Variable W : world.

(** On the path on which no poll reads pressed the loop ends with the
    timeout line and never prints the button line. *)
Lemma wait_loop_timeout_lines (n : nat) :
  forall s,
    (forall k, 0 <= k < Z.of_nat n ->
               pressed_at W (clock s + 100000 * k) = false) ->
    occurrences "Timeout - changing lights...\n" (out (wait_loop W n s))
    = 1%nat
    /\ occurrences "Button pressed! Changing lights...\n"
         (out (wait_loop W n s)) = 0%nat.
Proof.
  induction n as [|n IH]; intros s H.
  - split; reflexivity.
  - rewrite wait_loop_step. cbv zeta.
    assert (Hnow : pressed_at W (clock s) = false)
      by (rewrite (first_poll s); apply H; lia).
    rewrite Hnow. cbn [out].
    rewrite !occurrences_cons_other by reflexivity.
    apply IH. intros k Hk. rewrite next_poll. apply H. lia.
Qed.

(** On the path on which some poll reads pressed the loop prints the
    button line once and never reaches the timeout line. *)
Lemma wait_loop_press_lines (n : nat) :
  forall s k,
    0 <= k < Z.of_nat n ->
    (forall j, 0 <= j < k ->
               pressed_at W (clock s + 100000 * j) = false) ->
    pressed_at W (clock s + 100000 * k) = true ->
    occurrences "Button pressed! Changing lights...\n"
      (out (wait_loop W n s)) = 1%nat
    /\ occurrences "Timeout - changing lights...\n"
         (out (wait_loop W n s)) = 0%nat.
Proof.
  induction n as [|n IH]; intros s k Hk Hbefore Hat; [lia|].
  rewrite wait_loop_step. cbv zeta.
  destruct (Z.eq_dec k 0) as [->|Hne].
  - rewrite <- first_poll in Hat. rewrite Hat. split; reflexivity.
  - assert (Hnow : pressed_at W (clock s) = false)
      by (rewrite (first_poll s); apply Hbefore; lia).
    rewrite Hnow. cbn [out].
    rewrite !occurrences_cons_other by reflexivity.
    apply (IH (advance 100000 s) (k - 1)).
    + lia.
    + intros j Hj. rewrite next_poll. apply Hbefore. lia.
    + rewrite next_poll. now replace (k - 1 + 1) with k by lia.
Qed.

End WaitLines.

(** C3, as the code has it: for a timeout that is not negative and
    whose tenfold fits an [int], [wait_for_button_or_timeout] reads the
    button every 0.1 s starting at once, and sees the button at those
    polls only; the call takes as long as its sleeps.  When none of
    the [10 * timeout_seconds] polls reads pressed - whatever the
    button does between two polls or after the last one - it makes
    exactly that many polls, prints the timeout line and returns after
    [timeout_seconds] seconds.  When poll number [k] (counting from 0)
    is the first to read pressed it makes [k + 1] polls and no more,
    prints the button line and returns 0.3 s after that poll, that is
    0.1 * k + 0.3 seconds after it started; this is less than the full
    timeout exactly when [k < 10 * timeout_seconds - 3]. *)
Theorem wait_for_button_or_timeout_spec :
  forall (W : world) (timeout_seconds : Z) (s : state),
    0 <= timeout_seconds ->
    timeout_seconds * 10 <= INT_MAX ->
    let r := wait_for_button_or_timeout W timeout_seconds s in
    poll_times (clock s) (out r)
      = map (fun k => clock s + 100000 * Z.of_nat k)
            (seq 0 (Z.to_nat (polls (out r))))
    /\ clock (st r) = clock s + elapsed (out r)
    /\ ((forall k, 0 <= k < timeout_seconds * 10 ->
                   pressed_at W (clock s + 100000 * k) = false) ->
        polls (out r) = timeout_seconds * 10
        /\ elapsed (out r) = timeout_seconds * 1000000
        /\ occurrences "Timeout - changing lights...\n" (out r) = 1%nat
        /\ occurrences "Button pressed! Changing lights...\n" (out r)
           = 0%nat)
    /\ (forall k, 0 <= k < timeout_seconds * 10 ->
          (forall j, 0 <= j < k ->
                     pressed_at W (clock s + 100000 * j) = false) ->
          pressed_at W (clock s + 100000 * k) = true ->
          polls (out r) = k + 1
          /\ elapsed (out r) = 100000 * k + 300000
          /\ occurrences "Button pressed! Changing lights...\n" (out r)
             = 1%nat
          /\ occurrences "Timeout - changing lights...\n" (out r) = 0%nat
          /\ (elapsed (out r) < timeout_seconds * 1000000
              <-> k < timeout_seconds * 10 - 3)).
Proof.
  intros W t s H0 Hmax r. subst r.
  rewrite wait_for_button_or_timeout_out, wait_for_button_or_timeout_st.
  unfold int_mul. rewrite wrap_int_small by (unfold INT_MAX in *; lia).
  rewrite polls_cons, elapsed_cons, poll_times_cons.
  rewrite !occurrences_cons_other by reflexivity.
  cbn [is_poll duration app]. rewrite !Z.add_0_l, Z.add_0_r.
  split; [apply wait_loop_poll_times|].
  split; [apply wait_loop_clock|].
  split.
  - intros Hno.
    assert (Hno' : forall k, 0 <= k < Z.of_nat (Z.to_nat (t * 10)) ->
                             pressed_at W (clock s + 100000 * k) = false)
      by (intros k Hk; apply Hno; lia).
    destruct (wait_loop_timeout W (Z.to_nat (t * 10)) s Hno') as [Hp He].
    destruct (wait_loop_timeout_lines W (Z.to_nat (t * 10)) s Hno')
      as [Ht Hb].
    rewrite Hp, He, Ht, Hb. repeat split; lia.
  - intros k Hk Hbefore Hat.
    assert (Hk' : 0 <= k < Z.of_nat (Z.to_nat (t * 10))) by lia.
    destruct (wait_loop_press W (Z.to_nat (t * 10)) s k Hk' Hbefore Hat)
      as [Hp He].
    destruct (wait_loop_press_lines W (Z.to_nat (t * 10)) s k Hk' Hbefore
                Hat) as [Hb Ht].
    rewrite Hp, He, Hb, Ht. repeat split; lia.
Qed.

Lemma wait_for_button_or_timeout_spec_witness :
  (polls (out (wait_for_button_or_timeout idle_world 5 boot_state)) = 5 * 10
   /\ elapsed (out (wait_for_button_or_timeout idle_world 5 boot_state))
      = 5 * 1000000)
  /\ (polls (out (wait_for_button_or_timeout (press_world 150000) 5
                    boot_state)) = 2 + 1
      /\ elapsed (out (wait_for_button_or_timeout (press_world 150000) 5
                         boot_state)) = 100000 * 2 + 300000).
Proof.
  split.
  - destruct (wait_for_button_or_timeout_spec idle_world 5 boot_state)
      as (_ & _ & Hidle & _).
    + discriminate.
    + discriminate.
    + destruct Hidle as (Hp & He & _).
      * intros k Hk. reflexivity.
      * split; assumption.
  - destruct (wait_for_button_or_timeout_spec (press_world 150000) 5
                boot_state) as (_ & _ & _ & Hpress).
    + discriminate.
    + discriminate.
    + destruct (Hpress 2) as (Hp & He & _).
      * split; [discriminate | reflexivity].
      * intros j Hj. unfold pressed_at, press_world, boot_state.
        cbn [level clock].
        destruct (Z.ltb_spec (0 + 100000 * j) 150000); [reflexivity | lia].
      * reflexivity.
      * split; assumption.
Defined.

(** C3 as stated fails in two ways.  A button that goes down 4.95 s
    into a 5 s wait is down during the wait, yet no poll reads it: the
    call makes all 50 polls, prints no button line and lasts the full
    5 s, not the time so far plus 0.3 s.  A button that goes down 4.9 s
    into the wait is read by the last poll, and the call lasts 5.2 s,
    which is more than the full timeout. *)
Lemma press_between_polls_is_not_seen :
  let missed :=
    wait_for_button_or_timeout (press_world 4950000) 5 boot_state in
  let late :=
    wait_for_button_or_timeout (press_world 4900000) 5 boot_state in
  (clock boot_state <= 4950000 < clock boot_state + 5 * 1000000
   /\ pressed_at (press_world 4950000) 4950000 = true)
  /\ polls (out missed) = 50
  /\ elapsed (out missed) = 5 * 1000000
  /\ occurrences "Button pressed! Changing lights...\n" (out missed)
     = 0%nat
  /\ elapsed (out missed) <> 100000 * (polls (out missed) - 1) + 300000
  /\ elapsed (out missed) <> 4950000 + 300000
  /\ polls (out late) = 50
  /\ elapsed (out late) = 5200000
  /\ ~ elapsed (out late) < 5 * 1000000
  /\ ~ (pressed_at (press_world 4950000) 4950000 = true ->
        occurrences "Button pressed! Changing lights...\n" (out missed)
        = 1%nat
        /\ elapsed (out missed) < 5 * 1000000).
Proof.
  vm_compute. repeat split; try discriminate.
  intros H. destruct (H eq_refl) as [Hline _]. discriminate Hline.
Qed.

(** ** What the wait never does *)

Section Quiet.

Variable W : world.

Lemma wait_loop_no_write n :
  forall s, filter is_write (out (wait_loop W n s)) = [].
Proof.
  induction n as [|n IH]; intros s; [reflexivity|].
  rewrite wait_loop_step. cbv zeta.
  destruct (pressed_at W (clock s)); [reflexivity|].
  cbn [out filter is_write]. apply IH.
Qed.

Lemma wait_loop_no_label (fmt : string) n :
  String.eqb "Button pressed! Changing lights...\n" fmt = false ->
  String.eqb "Timeout - changing lights...\n" fmt = false ->
  forall s, filter (is_printf fmt) (out (wait_loop W n s)) = [].
Proof.
  intros Hb Ht. induction n as [|n IH]; intros s.
  - cbn [wait_loop printf emit out filter is_printf]. now rewrite Ht.
  - rewrite wait_loop_step. cbv zeta.
    destruct (pressed_at W (clock s)); cbn [out filter is_printf].
    + now rewrite Hb.
    + apply IH.
Qed.

End Quiet.

(** ** The shape of a run *)

Section Shape.

Variable W : world.

Lemma setup_gpio_ok (s : state) :
  (open_result W <? 0) = false -> mmap_ok W = true ->
  setup_gpio W s =
  mkResult 0 s [EOpen "/dev/mem" (open_result W);
                EMmap BLOCK_SIZE (open_result W) GPIO_BASE true;
   EClose (open_result W)].
Proof.
  intros Ho Hm.
  unfold setup_gpio, sys_open, sys_mmap, sys_close, emit, ret, bind.
  cbn [val st out]. rewrite Ho, Hm. reflexivity.
Qed.

Lemma setup_gpio_open_fails (s : state) :
  (open_result W <? 0) = true ->
  setup_gpio W s =
  mkResult (-1) s
    [EOpen "/dev/mem" (open_result W);
     EPrintf "Error: can't open /dev/mem (try running with sudo)\n" []].
Proof.
  intros Ho. unfold setup_gpio, sys_open, printf, emit, ret, bind.
  cbn [val st out]. rewrite Ho. reflexivity.
Qed.

Lemma setup_gpio_mmap_fails (s : state) :
  (open_result W <? 0) = false -> mmap_ok W = false ->
  setup_gpio W s =
  mkResult (-1) s
    [EOpen "/dev/mem" (open_result W);
     EMmap BLOCK_SIZE (open_result W) GPIO_BASE false;
     EClose (open_result W); EPrintf "Error: mmap failed\n" []].
Proof.
  intros Ho Hm.
  unfold setup_gpio, sys_open, sys_mmap, sys_close, printf, emit, ret, bind.
  cbn [val st out]. rewrite Ho, Hm. reflexivity.
Qed.

(** When [setup_gpio] reports -1, [main] stops there. *)
Lemma main_setup_fails (argc : Z) (argv : list string) (s : state) :
  val (setup_gpio W s) = -1 ->
  main W argc argv s =
  mkResult 1 (st (setup_gpio W s))
    ([EPrintf "Traffic Lights Control - F28HS Lab Week 5\n" [];
      EPrintf "==========================================\n\n" []]
     ++ out (setup_gpio W s)).
Proof.
  intros Hs. rewrite (result_eta (main W argc argv s)). unfold main.
  rewrite !val_bind, !st_bind, !out_bind. cbn [printf emit val st out].
  rewrite Hs. change (-1 =? -1) with true. cbv iota.
  cbn [ret val st out app]. now rewrite app_nil_r.
Qed.

Lemma main_open_fails (argc : Z) (argv : list string) (s : state) :
  (open_result W <? 0) = true ->
  main W argc argv s =
  mkResult 1 s
    [EPrintf "Traffic Lights Control - F28HS Lab Week 5\n" [];
     EPrintf "==========================================\n\n" [];
     EOpen "/dev/mem" (open_result W);
     EPrintf "Error: can't open /dev/mem (try running with sudo)\n" []].
Proof.
  intros Ho. rewrite main_setup_fails;
    rewrite (setup_gpio_open_fails s Ho); reflexivity.
Qed.

Lemma main_mmap_fails (argc : Z) (argv : list string) (s : state) :
  (open_result W <? 0) = false -> mmap_ok W = false ->
  main W argc argv s =
  mkResult 1 s
    [EPrintf "Traffic Lights Control - F28HS Lab Week 5\n" [];
     EPrintf "==========================================\n\n" [];
     EOpen "/dev/mem" (open_result W);
     EMmap BLOCK_SIZE (open_result W) GPIO_BASE false;
     EClose (open_result W);
     EPrintf "Error: mmap failed\n" []].
Proof.
  intros Ho Hm. rewrite main_setup_fails;
    rewrite (setup_gpio_mmap_fails s Ho Hm); reflexivity.
Qed.

Lemma main_ok_val (argc : Z) (argv : list string) (s : state) :
  (open_result W <? 0) = false -> mmap_ok W = true ->
  val (main W argc argv s) = 0.
Proof.
  intros Ho Hm. unfold main.
  rewrite !val_bind. cbn [printf emit val st out].
  rewrite (setup_gpio_ok s Ho Hm). cbn [val st out].
  change (0 =? -1) with false. cbv iota.
  rewrite !val_bind. reflexivity.
Qed.

Lemma all_off_out (s : state) :
  out (all_off s) =
  [EWrite GPCLR0 PIN10_MASK; EWrite GPCLR0 PIN11_MASK;
   EWrite GPCLR0 PIN13_MASK].
Proof. reflexivity. Qed.

Lemma main_ok_out (argc : Z) (argv : list string) (s : state) :
  (open_result W <? 0) = false -> mmap_ok W = true ->
  out (main W argc argv s) =
  [EPrintf "Traffic Lights Control - F28HS Lab Week 5\n" [];
   EPrintf "==========================================\n\n" [];
   EOpen "/dev/mem" (open_result W);
   EMmap BLOCK_SIZE (open_result W) GPIO_BASE true;
   EClose (open_result W)]
  ++ out (init_gpio W s)
  ++ [EPrintf "GPIO initialized successfully.\n" [];
      EPrintf "Red LED: GPIO 10 (BCM)\n" [];
      EPrintf "Yellow LED: GPIO 11 (BCM)\n" [];
      EPrintf "Green LED: GPIO 13 (BCM)\n" [];
      EPrintf "Button (optional): GPIO 26 (BCM)\n\n" []]
  ++ out (traffic_light_sequence W (st (init_gpio W s)))
  ++ [EWrite GPCLR0 PIN10_MASK; EWrite GPCLR0 PIN11_MASK;
      EWrite GPCLR0 PIN13_MASK;
      EPrintf "Program finished. All LEDs turned off.\n" []].
Proof.
  intros Ho Hm. unfold main.
  rewrite !out_bind. cbn [printf emit val st out].
  rewrite (setup_gpio_ok s Ho Hm). cbn [val st out].
  change (0 =? -1) with false. cbv iota.
  rewrite !out_bind, all_off_out. cbn [printf emit ret val st out app].
  reflexivity.
Qed.

(** The sequence is what comes before the wait, the wait, and what
    comes after it. *)
Lemma sequence_split (s : state) :
  out (traffic_light_sequence W s) =
  out (sequence_until_wait s) ++ out (button_wait W s)
  ++ out (sequence_after_wait (st (button_wait W s))).
Proof.
  unfold traffic_light_sequence, sequence_until_wait, sequence_after_wait,
    button_wait, phase4.
  rewrite !out_bind, !st_bind. cbn [printf emit val st out].
  rewrite <- !app_assoc. reflexivity.
Qed.

Lemma button_wait_out (s : state) :
  out (button_wait W s) =
  [EPrintf "Waiting for pedestrian button or timeout (%d seconds)...\n" [5]]
  ++ out (wait_loop W 50 (st (sequence_until_wait s))).
Proof. reflexivity. Qed.

End Shape.

(** ** Timing *)

Lemma elapsed_until_wait (s : state) :
  elapsed (out (sequence_until_wait s)) = 10000000.
Proof. reflexivity. Qed.

Lemma elapsed_after_wait (s : state) :
  elapsed (out (sequence_after_wait s)) = 8000000.
Proof. reflexivity. Qed.

Lemma elapsed_button_wait (W : world) (s : state) :
  elapsed (out (button_wait W s)) = 5000000
  \/ exists k, 0 <= k < 50
               /\ elapsed (out (button_wait W s)) = 100000 * k + 300000.
Proof.
  rewrite button_wait_out, elapsed_app.
  change (elapsed [EPrintf _ _]) with 0. rewrite Z.add_0_l.
  destruct (wait_loop_elapsed W 50 (st (sequence_until_wait s)))
    as [->|(k & Hk & ->)].
  - left. reflexivity.
  - right. exists k. split; [lia|reflexivity].
Qed.

(** The wait starts 10 s into the sequence. *)
Lemma clock_until_wait (s : state) :
  clock (st (sequence_until_wait s)) = clock s + 10000000.
Proof.
  unfold sequence_until_wait, phase1, phase2, phase3, phase4_leds.
  rewrite !st_bind. cbn [store sleep printf emit advance st clock].
  unfold RED_DURATION, RED_YELLOW_DURATION, GREEN_DURATION. lia.
Qed.

(** C2, as the code has it: a run of the sequence consists of the part
    before the button wait, the wait and the part after it; the time
    outside the wait is 18 s; the wait takes between 0 and 5.2 s.  Its
    50 polls fall 10 s + 0.1 * k s after the start of the sequence:
    when none of them reads pressed the wait takes exactly 5 s, and
    when poll [k] (counting from 0) is the first to read pressed it
    takes exactly 0.1 * k + 0.3 s. *)
Theorem sequence_timing :
  forall (W : world) (s : state),
    out (traffic_light_sequence W s)
      = out (sequence_until_wait s) ++ out (button_wait W s)
        ++ out (sequence_after_wait (st (button_wait W s)))
    /\ elapsed (out (traffic_light_sequence W s))
       - elapsed (out (button_wait W s))
       = (3 + 2 + 5 + 2 + 3 * 1 + 3) * 1000000
    /\ 0 <= elapsed (out (button_wait W s)) <= 5200000
    /\ (elapsed (out (button_wait W s)) = 5000000
        \/ exists k, 0 <= k < 50
             /\ elapsed (out (button_wait W s)) = 100000 * k + 300000)
    /\ ((forall k, 0 <= k < 50 ->
           pressed_at W (clock s + 10000000 + 100000 * k) = false) ->
        elapsed (out (button_wait W s)) = 5000000)
    /\ (forall k, 0 <= k < 50 ->
          (forall j, 0 <= j < k ->
             pressed_at W (clock s + 10000000 + 100000 * j) = false) ->
          pressed_at W (clock s + 10000000 + 100000 * k) = true ->
          elapsed (out (button_wait W s)) = 100000 * k + 300000).
Proof.
  intros W s. split; [apply sequence_split|].
  pose proof (elapsed_button_wait W s) as Hw.
  split; [|split; [|split; [exact Hw|]]].
  - rewrite sequence_split, !elapsed_app, elapsed_until_wait,
      elapsed_after_wait. lia.
  - destruct Hw as [->|(k & Hk & ->)]; lia.
  - rewrite button_wait_out, elapsed_app.
    change (elapsed [EPrintf _ _]) with 0. rewrite Z.add_0_l.
    rewrite <- clock_until_wait. split.
    + intros Hno.
      destruct (wait_loop_timeout W 50 (st (sequence_until_wait s)))
        as [_ He]; [|exact He].
      intros k Hk. apply Hno. lia.
    + intros k Hk Hbefore Hat.
      apply (wait_loop_press W 50 (st (sequence_until_wait s)) k);
        (assumption || lia).
Qed.

Lemma sequence_timing_witness :
  elapsed (out (button_wait idle_world boot_state)) = 5000000
  /\ elapsed (out (button_wait (press_world 12000000) boot_state))
     = 100000 * 20 + 300000.
Proof.
  split.
  - destruct (sequence_timing idle_world boot_state)
      as (_ & _ & _ & _ & Hidle & _).
    apply Hidle. intros k Hk. reflexivity.
  - destruct (sequence_timing (press_world 12000000) boot_state)
      as (_ & _ & _ & _ & _ & Hpress).
    apply (Hpress 20).
    + split; [discriminate | reflexivity].
    + intros j Hj. unfold pressed_at, press_world, boot_state.
      cbn [level clock].
      destruct (Z.ltb_spec (0 + 10000000 + 100000 * j) 12000000);
        [reflexivity | lia].
    + reflexivity.
Defined.

(** C2 as stated fails when the button goes down 4.9 s into the wait
    (14.9 s into the sequence): the last poll sees it, and the wait
    lasts 4.9 s + 0.3 s = 5.2 s. *)
Lemma button_wait_exceeds_five_seconds :
  elapsed (out (button_wait (press_world 14900000) boot_state)) = 5200000
  /\ ~ (elapsed (out (traffic_light_sequence (press_world 14900000)
                        boot_state))
        - elapsed (out (button_wait (press_world 14900000) boot_state))
        = 18000000
        /\ 0 <= elapsed (out (button_wait (press_world 14900000)
                                boot_state)) <= 5000000).
Proof.
  assert (H : elapsed (out (button_wait (press_world 14900000) boot_state))
              = 5200000) by (vm_compute; reflexivity).
  split; [exact H|]. rewrite H. lia.
Qed.

(** ** Exit codes *)

(** C5: [main] returns 0 when [open] and [mmap] succeed; when [open]
    returns a negative descriptor or [mmap] fails it returns 1, its
    trace has no register write, and the register block and the clock
    are as they were. *)
Theorem main_exit_code :
  forall (W : world) (argc : Z) (argv : list string) (s : state),
    let r := main W argc argv s in
    (0 <= open_result W -> mmap_ok W = true -> val r = 0)
    /\ (open_result W < 0 \/ mmap_ok W = false ->
        val r = 1 /\ filter is_write (out r) = [] /\ st r = s).
Proof.
  intros W argc argv s r. subst r. split.
  - intros Ho Hm. apply main_ok_val; [|assumption].
    apply Z.ltb_ge. assumption.
  - intros Hfail.
    destruct (Z.ltb_spec (open_result W) 0) as [Hlt|Hge].
    + rewrite main_open_fails by (apply Z.ltb_lt; assumption).
      repeat split.
    + destruct Hfail as [Hlt|Hm]; [lia|].
      rewrite main_mmap_fails by (assumption || apply Z.ltb_ge; assumption).
      repeat split.
Qed.

Lemma main_exit_code_witness :
  val (main idle_world 1 ["traffic_lights"] boot_state) = 0
  /\ (val (main no_device_world 1 ["traffic_lights"] boot_state) = 1
      /\ filter is_write
           (out (main no_device_world 1 ["traffic_lights"] boot_state)) = []
      /\ st (main no_device_world 1 ["traffic_lights"] boot_state)
         = boot_state)
  /\ (val (main no_mapping_world 1 ["traffic_lights"] boot_state) = 1
      /\ filter is_write
           (out (main no_mapping_world 1 ["traffic_lights"] boot_state)) = []
      /\ st (main no_mapping_world 1 ["traffic_lights"] boot_state)
         = boot_state).
Proof.
  split; [|split].
  - apply (main_exit_code idle_world 1 ["traffic_lights"] boot_state).
    + discriminate.
    + reflexivity.
  - apply (main_exit_code no_device_world 1 ["traffic_lights"] boot_state).
    left. reflexivity.
  - apply (main_exit_code no_mapping_world 1 ["traffic_lights"] boot_state).
    right. reflexivity.
Defined.

(** C9: the result of [main] - exit code, final state and the whole
    trace, register writes included - is the same for any two argument
    vectors, given the same environment and the same initial state. *)
Theorem main_ignores_arguments :
  forall (W : world) (s : state)
         (argc argc' : Z) (argv argv' : list string),
    main W argc argv s = main W argc' argv' s
    /\ val (main W argc argv s) = val (main W argc' argv' s)
    /\ filter is_write (out (main W argc argv s))
       = filter is_write (out (main W argc' argv' s)).
Proof. intros. repeat split. Qed.

(** ** The LED bits of the latch *)

Lemma leds_of_pin_effect (e : event) (pins : Z) :
  leds_of (pin_effect e pins) = led_effect e (leds_of pins).
Proof.
  destruct e as [ | | | | |offset value| | ]; try reflexivity.
  unfold pin_effect, led_effect.
  destruct (offset =? GPSET0).
  - unfold leds_of. cbn [red yellow green]. now rewrite !Z.lor_spec.
  - destruct (offset =? GPCLR0); [|reflexivity].
    unfold leds_of. cbn [red yellow green]. now rewrite !Z.ldiff_spec.
Qed.

Lemma leds_of_pins_after (tr : list event) :
  forall pins, leds_of (pins_after pins tr) = leds_after (leds_of pins) tr.
Proof.
  induction tr as [|e tr IH]; intros pins; [reflexivity|].
  cbn [pins_after leds_after fold_left].
  rewrite <- leds_of_pin_effect. apply IH.
Qed.

Lemma write_states_leds (tr : list event) :
  forall pins, write_states pins tr = led_states (leds_of pins) tr.
Proof.
  induction tr as [|e tr IH]; intros pins; [reflexivity|].
  cbn [write_states led_states]. cbv zeta.
  now rewrite IH, leds_of_pin_effect.
Qed.

Lemma led_effect_not_write (e : event) (l : leds) :
  is_write e = false -> led_effect e l = l.
Proof. destruct e; (reflexivity || discriminate). Qed.

Lemma leds_after_writes (tr : list event) :
  forall l, leds_after l tr = leds_after l (filter is_write tr).
Proof.
  induction tr as [|e tr IH]; intros l; [reflexivity|].
  cbn [filter]. destruct (is_write e) eqn:E.
  - cbn [leds_after fold_left]. apply IH.
  - cbn [leds_after fold_left]. rewrite led_effect_not_write by assumption.
    apply IH.
Qed.

Lemma led_states_writes (tr : list event) :
  forall l, led_states l tr = led_states l (filter is_write tr).
Proof.
  induction tr as [|e tr IH]; intros l; [reflexivity|].
  cbn [filter led_states]. cbv zeta. destruct (is_write e) eqn:E.
  - cbn [led_states]. cbv zeta. rewrite E. now rewrite IH.
  - rewrite led_effect_not_write by assumption. apply IH.
Qed.

Lemma leds_after_app (a b : list event) (l : leds) :
  leds_after l (a ++ b) = leds_after (leds_after l a) b.
Proof. apply fold_left_app. Qed.

(** A phase writes the same registers in every run. *)
Lemma phase_body_writes (W : world) (p : phase) (s : state) :
  filter is_write (out (phase_body W p s)) = phase_writes p.
Proof.
  destruct p; try reflexivity.
  unfold phase_writes, phase_body, phase4.
  rewrite !out_bind, !filter_app, !wait_for_button_or_timeout_out.
  cbn [filter is_write]. rewrite !wait_loop_no_write. reflexivity.
Qed.

Lemma instants_led_instants (W : world) (ps : list phase) :
  forall pins s, instants W ps pins s = led_instants ps (leds_of pins).
Proof.
  induction ps as [|p ps IH]; intros pins s; [reflexivity|].
  cbn [instants led_instants]. cbv zeta.
  rewrite IH, leds_of_pins_after, write_states_leds.
  rewrite led_states_writes, leds_after_writes, phase_body_writes.
  reflexivity.
Qed.

(** [init_gpio] leaves the three LEDs off, whatever the latch held. *)
Lemma init_gpio_leds_off (W : world) (s : state) (pins : Z) :
  leds_of (pins_after pins (out (init_gpio W s))) = off.
Proof.
  rewrite leds_of_pins_after.
  destruct (leds_of pins) as [[] [] []]; reflexivity.
Qed.

(** The LED history of the sequence, write by write. *)
Lemma sequence_instants_eq (W : world) (pins0 : Z) (s0 : state) :
  sequence_instants W pins0 s0 =
  [(Phase1, only_red); (Phase1, only_red); (Phase1, only_red);
   (Phase2, only_red); (Phase2, red_yellow); (Phase2, red_yellow);
   (Phase3, only_yellow); (Phase3, off); (Phase3, only_green);
   (Phase4, only_green); (Phase4, only_green); (Phase4, only_green);
   (Phase5, only_green); (Phase5, only_green); (Phase5, only_green);
   (Phase6, only_green); (Phase6, off);
   (Phase6, only_yellow); (Phase6, off);
   (Phase6, only_yellow); (Phase6, off);
   (Phase6, only_yellow); (Phase6, off);
   (Phase7, only_red); (Phase7, only_red); (Phase7, only_red)].
Proof.
  unfold sequence_instants. cbv zeta.
  rewrite instants_led_instants, init_gpio_leds_off.
  vm_compute. reflexivity.
Qed.

(** C4 as stated fails at the first write of phase 3: red has just
    been switched off, yellow is still lit from phase 2, and the
    combination documented for phase 3 is green alone. *)
Lemma phase3_first_write_leaves_yellow_lit :
  In (Phase3, only_yellow) (sequence_instants idle_world 0 boot_state)
  /\ at_most only_yellow (documented Phase3) = false
  /\ ~ Forall (fun x => at_most (snd x) (documented (fst x)) = true)
         (sequence_instants idle_world 0 boot_state).
Proof.
  assert (Hin : In (Phase3, only_yellow)
                   (sequence_instants idle_world 0 boot_state)).
  { rewrite sequence_instants_eq. cbn [In]. tauto. }
  split; [exact Hin|]. split; [reflexivity|].
  intros Hall. rewrite Forall_forall in Hall.
  specialize (Hall _ Hin). discriminate Hall.
Qed.

(** C4, as the code has it: in every run, after each register write of
    the sequence the lit LEDs are at most the combination documented
    for the phase the write belongs to, or at most that of the phase
    just left; red and green are never lit together; and once the
    writes of a phase are done the LEDs show exactly the documented
    combination (red and yellow without green in phase 2), phase 6
    ending with all three off. *)
Theorem sequence_leds_documented :
  forall (W : world) (pins0 : Z) (s0 : state),
    Forall (fun x =>
              (at_most (snd x) (documented (fst x)) = true
               \/ at_most (snd x) (documented (previous (fst x))) = true)
              /\ (red (snd x) && green (snd x) = false))
           (sequence_instants W pins0 s0)
    /\ map (fun p => settled p (sequence_instants W pins0 s0)) all_phases
       = [Some (documented Phase1); Some (documented Phase2);
          Some (documented Phase3); Some (documented Phase4);
          Some (documented Phase5); Some off;
          Some (documented Phase7)].
Proof.
  intros W pins0 s0. rewrite sequence_instants_eq. split.
  - repeat (apply Forall_cons; [cbn; auto|]). apply Forall_nil.
  - reflexivity.
Qed.

(** ** The blink *)

(** C6: phase 6 writes red low and green low, then three times over
    yellow high, 0.5 s, yellow low, 0.5 s: three set-writes and three
    clear-writes of the yellow mask, whatever the state.  In a run of
    the sequence yellow is off when the phase starts, so each of the six
    writes changes the yellow bit, and yellow is off (with red and
    green) when the phase ends. *)
Theorem phase6_blinks_three_times :
  forall (W : world) (pins0 : Z) (s0 s : state),
    let history :=
      map snd (filter (fun x => phase_eqb (fst x) Phase6)
                      (sequence_instants W pins0 s0)) in
    out (phase6 s)
      = [EPrintf "Phase 6: YELLOW BLINKING (ATTENTION - PREPARE TO STOP)\n"
                 [];
         EWrite GPCLR0 PIN10_MASK; EWrite GPCLR0 PIN13_MASK;
         EWrite GPSET0 PIN11_MASK; EUsleep 500000;
         EWrite GPCLR0 PIN11_MASK; EUsleep 500000;
         EWrite GPSET0 PIN11_MASK; EUsleep 500000;
         EWrite GPCLR0 PIN11_MASK; EUsleep 500000;
         EWrite GPSET0 PIN11_MASK; EUsleep 500000;
         EWrite GPCLR0 PIN11_MASK; EUsleep 500000]
    /\ count_writes GPSET0 PIN11_MASK (out (phase6 s)) = 3%nat
    /\ count_writes GPCLR0 PIN11_MASK (out (phase6 s)) = 3%nat
    /\ settled Phase5 (sequence_instants W pins0 s0) = Some only_green
    /\ history = [only_green; off; only_yellow; off; only_yellow; off;
                  only_yellow; off]
    /\ flips false (map yellow history) = 6%nat
    /\ settled Phase6 (sequence_instants W pins0 s0) = Some off.
Proof.
  intros W pins0 s0 s history. subst history.
  rewrite sequence_instants_eq. repeat split.
Qed.

(** ** One run, then lights out *)

Lemma occurrences_app (fmt : string) (a b : list event) :
  occurrences fmt (a ++ b) = (occurrences fmt a + occurrences fmt b)%nat.
Proof. unfold occurrences. now rewrite filter_app, length_app. Qed.

Lemma occurrences_wait_loop (W : world) (fmt : string) (n : nat)
      (s : state) :
  String.eqb "Button pressed! Changing lights...\n" fmt = false ->
  String.eqb "Timeout - changing lights...\n" fmt = false ->
  occurrences fmt (out (wait_loop W n s)) = 0%nat.
Proof.
  intros Hb Ht. unfold occurrences.
  now rewrite wait_loop_no_label by assumption.
Qed.

(** The trace of a successful run, with the polling loop as its only
    part that depends on the button. *)
Lemma main_ok_trace (W : world) (argc : Z) (argv : list string)
      (s : state) :
  (open_result W <? 0) = false -> mmap_ok W = true ->
  out (main W argc argv s) =
  ([EPrintf "Traffic Lights Control - F28HS Lab Week 5\n" [];
    EPrintf "==========================================\n\n" [];
    EOpen "/dev/mem" (open_result W);
    EMmap BLOCK_SIZE (open_result W) GPIO_BASE true;
   EClose (open_result W)]
   ++ out (init_gpio W s)
   ++ [EPrintf "GPIO initialized successfully.\n" [];
       EPrintf "Red LED: GPIO 10 (BCM)\n" [];
       EPrintf "Yellow LED: GPIO 11 (BCM)\n" [];
       EPrintf "Green LED: GPIO 13 (BCM)\n" [];
       EPrintf "Button (optional): GPIO 26 (BCM)\n\n" []]
   ++ out (sequence_until_wait (st (init_gpio W s)))
   ++ [EPrintf
         "Waiting for pedestrian button or timeout (%d seconds)...\n" [5]])
  ++ out (wait_loop W 50 (st (sequence_until_wait (st (init_gpio W s)))))
  ++ out (sequence_after_wait (st (button_wait W (st (init_gpio W s)))))
  ++ [EWrite GPCLR0 PIN10_MASK; EWrite GPCLR0 PIN11_MASK;
      EWrite GPCLR0 PIN13_MASK;
      EPrintf "Program finished. All LEDs turned off.\n" []].
Proof.
  intros Ho Hm. rewrite main_ok_out by assumption.
  rewrite sequence_split, button_wait_out.
  rewrite <- !app_assoc. reflexivity.
Qed.

Lemma occurrences_main_ok (W : world) (argc : Z) (argv : list string)
      (s : state) (fmt : string) :
  (open_result W <? 0) = false -> mmap_ok W = true ->
  String.eqb "Button pressed! Changing lights...\n" fmt = false ->
  String.eqb "Timeout - changing lights...\n" fmt = false ->
  occurrences fmt (out (main W argc argv s)) =
  occurrences fmt (out (main idle_world argc argv boot_state)).
Proof.
  intros Ho Hm Hb Ht.
  rewrite (main_ok_trace W argc argv s Ho Hm).
  rewrite (main_ok_trace idle_world argc argv boot_state)
    by reflexivity.
  rewrite !occurrences_app.
  rewrite !occurrences_wait_loop by assumption.
  reflexivity.
Qed.

(** C8: in a run in which [open] and [mmap] succeed, [main] returns 0;
    the line that opens the sequence, the line of each phase and the
    line that closes the sequence are each printed exactly once, so the
    sequence is run once and phase 1 is not entered again; what follows
    the terminal red phase is the closing line, a clear-write for each
    of pins 10, 11 and 13, and the final message; and the three LED
    bits of the latch are clear at exit, whatever the latch held at the
    start. *)
Theorem main_runs_sequence_once :
  forall (W : world) (argc : Z) (argv : list string) (s : state)
         (pins0 : Z),
    0 <= open_result W ->
    mmap_ok W = true ->
    let r := main W argc argv s in
    val r = 0
    /\ map (fun fmt => occurrences fmt (out r)) sequence_labels
       = [1; 1; 1; 1; 1; 1; 1; 1; 1]%nat
    /\ (exists before,
          out r = before
                  ++ [EPrintf "Phase 7: RED ON (STOP)\n" [];
                      EWrite GPSET0 PIN10_MASK;
                      EWrite GPCLR0 PIN11_MASK;
                      EWrite GPCLR0 PIN13_MASK;
                      ESleep RED_DURATION;
                      EPrintf "\n=== Sequence Complete ===\n\n" [];
                      EWrite GPCLR0 PIN10_MASK;
                      EWrite GPCLR0 PIN11_MASK;
                      EWrite GPCLR0 PIN13_MASK;
                      EPrintf "Program finished. All LEDs turned off.\n"
                              []])
    /\ leds_of (pins_after pins0 (out r)) = off.
Proof.
  intros W argc argv s pins0 Ho Hm r. subst r.
  apply Z.ltb_ge in Ho.
  split; [apply main_ok_val; assumption|].
  split; [|split].
  - cbn [map sequence_labels].
    rewrite !(occurrences_main_ok W argc argv s _ Ho Hm) by reflexivity.
    vm_compute. reflexivity.
  - rewrite (main_ok_trace W argc argv s Ho Hm).
    set (s5 := st (button_wait W (st (init_gpio W s)))).
    match goal with
    | |- context [?pre ++ out (wait_loop W 50 ?s4) ++ _] =>
        exists (pre ++ out (wait_loop W 50 s4)
                ++ out (phase5 s5) ++ out (phase6 (st (phase5 s5))))
    end.
    rewrite <- !app_assoc. reflexivity.
  - rewrite (main_ok_trace W argc argv s Ho Hm).
    rewrite leds_of_pins_after, !app_assoc, leds_after_app.
    match goal with
    | |- leds_after ?l _ = _ => destruct l as [[] [] []]; reflexivity
    end.
Qed.

Lemma main_runs_sequence_once_witness :
  val (main idle_world 1 ["traffic_lights"] boot_state) = 0
  /\ occurrences "Phase 1: RED ON (STOP)\n"
       (out (main idle_world 1 ["traffic_lights"] boot_state)) = 1%nat
  /\ leds_of (pins_after (Z.ones 32)
                (out (main idle_world 1 ["traffic_lights"] boot_state)))
     = off.
Proof.
  destruct (main_runs_sequence_once idle_world 1 ["traffic_lights"]
              boot_state (Z.ones 32))
    as (Hval & Hlabels & _ & Hoff).
  - discriminate.
  - reflexivity.
  - split; [exact Hval|]. split; [|exact Hoff].
    cbn [map sequence_labels] in Hlabels. congruence.
Defined.

(** ** What is written to the set and clear registers *)

Lemma led_write_ok_writes (tr : list event) :
  forallb led_write_ok tr = forallb led_write_ok (filter is_write tr).
Proof.
  induction tr as [|e tr IH]; [reflexivity|].
  cbn [forallb filter]. destruct e; cbn [is_write forallb led_write_ok];
    rewrite IH; reflexivity.
Qed.

Lemma main_led_writes_ok (W : world) (argc : Z) (argv : list string)
      (s : state) :
  forallb led_write_ok (out (main W argc argv s)) = true.
Proof.
  destruct (open_result W <? 0) eqn:Ho.
  - rewrite main_open_fails by assumption. reflexivity.
  - destruct (mmap_ok W) eqn:Hm.
    + rewrite (main_ok_trace W argc argv s Ho Hm).
      rewrite !forallb_app.
      rewrite (led_write_ok_writes (out (wait_loop W 50 _))).
      rewrite wait_loop_no_write. reflexivity.
    + rewrite main_mmap_fails by assumption. reflexivity.
Qed.

Lemma led_write_ok_masks (offset value : Z) :
  led_write_ok (EWrite offset value) = true ->
  offset = GPSET0 \/ offset = GPCLR0 ->
  (value = Z.shiftl 1 10 \/ value = Z.shiftl 1 11 \/ value = Z.shiftl 1 13)
  /\ Z.testbit value BUTTON = false
  /\ (forall pin, 0 <= pin -> pin <> RED_LED -> pin <> YELLOW_LED ->
                  pin <> GREEN_LED -> Z.testbit value pin = false).
Proof.
  intros Hok Hoff. cbn [led_write_ok] in Hok.
  replace ((offset =? GPSET0) || (offset =? GPCLR0)) with true in Hok.
  2:{ symmetry. apply orb_true_iff.
      destruct Hoff as [->| ->]; [left|right]; reflexivity. }
  apply orb_true_iff in Hok. destruct Hok as [Hok|Hg].
  - apply orb_true_iff in Hok. destruct Hok as [Hr|Hy].
    + apply Z.eqb_eq in Hr. subst value.
      split; [left; reflexivity|]. split; [reflexivity|].
      intros pin Hp Hr _ _. unfold RED_LED in *.
      change (Z.shiftl 1 10) with (2 ^ 10).
      apply Z.pow2_bits_false. congruence.
    + apply Z.eqb_eq in Hy. subst value.
      split; [right; left; reflexivity|]. split; [reflexivity|].
      intros pin Hp _ Hy _. unfold YELLOW_LED in *.
      change (Z.shiftl 1 11) with (2 ^ 11).
      apply Z.pow2_bits_false. congruence.
  - apply Z.eqb_eq in Hg. subst value.
    split; [right; right; reflexivity|]. split; [reflexivity|].
    intros pin Hp _ _ Hg. unfold GREEN_LED in *.
    change (Z.shiftl 1 13) with (2 ^ 13).
    apply Z.pow2_bits_false. congruence.
Qed.

(** C10: every word that a run of [main] - [init_gpio], the sequence
    and the final cleanup included - or any of the six LED helper
    functions writes to the set register or to the clear register is
    one of 1<<10, 1<<11 and 1<<13; bit 26 is 0 in it, and so is the bit
    of every pin other than 10, 11 and 13. *)
Theorem only_led_masks_written :
  forall (W : world) (argc : Z) (argv : list string) (s : state)
         (offset value : Z),
    In (EWrite offset value) (out (main W argc argv s))
    \/ (exists helper, In helper led_helpers
                       /\ In (EWrite offset value) (out (helper s))) ->
    offset = GPSET0 \/ offset = GPCLR0 ->
    (value = Z.shiftl 1 10 \/ value = Z.shiftl 1 11
     \/ value = Z.shiftl 1 13)
    /\ Z.testbit value BUTTON = false
    /\ (forall pin, 0 <= pin -> pin <> RED_LED -> pin <> YELLOW_LED ->
                    pin <> GREEN_LED -> Z.testbit value pin = false).
Proof.
  intros W argc argv s offset value Hin Hoff.
  apply (led_write_ok_masks offset value); [|assumption].
  destruct Hin as [Hin|(helper & Hh & Hin)].
  - pose proof (main_led_writes_ok W argc argv s) as Hall.
    rewrite forallb_forall in Hall. apply Hall, Hin.
  - cbn [led_helpers In] in Hh.
    repeat (destruct Hh as [<-|Hh];
            [cbn [In out red_on red_off yellow_on yellow_off green_on
                     green_off store] in Hin;
             destruct Hin as [Hin|[]]; inversion Hin; reflexivity|]).
    destruct Hh.
Qed.

Lemma only_led_masks_written_witness :
  (PIN13_MASK = Z.shiftl 1 10 \/ PIN13_MASK = Z.shiftl 1 11
   \/ PIN13_MASK = Z.shiftl 1 13)
  /\ Z.testbit PIN13_MASK BUTTON = false
  /\ (forall pin, 0 <= pin -> pin <> RED_LED -> pin <> YELLOW_LED ->
                  pin <> GREEN_LED -> Z.testbit PIN13_MASK pin = false).
Proof.
  apply (only_led_masks_written idle_world 1 ["traffic_lights"] boot_state
           GPSET0 PIN13_MASK).
  - left. vm_compute. tauto.
  - left. reflexivity.
Defined.

(** * Further properties *)

(** ** Pin configuration, continued *)

Lemma init_gpio_function_select_witness :
  fsel_field RED_LED (regs (st (init_gpio idle_world full_block)) GPFSEL1)
  = FSEL_OUTPUT
  /\ fsel_field BUTTON (regs (st (init_gpio idle_world full_block)) GPFSEL2)
     = FSEL_INPUT
  /\ Z.testbit (regs (st (init_gpio idle_world full_block)) GPFSEL1) 12
     = Z.testbit (regs full_block GPFSEL1) 12
  /\ Z.testbit (regs (st (init_gpio idle_world full_block)) GPFSEL2) 21
     = Z.testbit (regs full_block GPFSEL2) 21.
Proof.
  destruct (init_gpio_function_select idle_world full_block)
    as (Hr & _ & _ & Hb & H1 & H2 & _).
  split; [exact Hr|]. split; [exact Hb|]. split.
  - apply H1. split; [discriminate | reflexivity].
  - apply H2.
    + split; [discriminate | reflexivity].
    + intros [_ H]. apply H. reflexivity.
Defined.

Lemma init_gpio_other_words (W : world) (s : state) (offset : Z) :
  offset <> GPFSEL1 -> offset <> GPFSEL2 -> offset <> GPCLR0 ->
  regs (st (init_gpio W s)) offset = regs s offset.
Proof.
  intros H1 H2 Hc. apply Z.eqb_neq in H1, H2, Hc.
  unfold init_gpio. rewrite !st_bind. cbn [store load st regs].
  unfold update. now rewrite H1, H2, Hc.
Qed.

(** [init_gpio] changes three words of the register block and no
    other: the two function-select words and the clear register, which
    ends up holding the mask of pin 10.  It reads each function-select
    word once before writing it, never writes the set register, and
    takes no time. *)
Theorem init_gpio_frame :
  forall (W : world) (s : state),
    let r := init_gpio W s in
    (forall offset, offset <> GPFSEL1 -> offset <> GPFSEL2 ->
                    offset <> GPCLR0 ->
                    regs (st r) offset = regs s offset)
    /\ regs (st r) GPCLR0 = PIN10_MASK
    /\ accessed (out r)
       = [GPFSEL1; GPFSEL1; GPFSEL2; GPFSEL2; GPCLR0; GPCLR0; GPCLR0]
    /\ map is_write (filter (fun e => is_read e || is_write e) (out r))
       = [false; true; false; true; true; true; true]
    /\ clock (st r) = clock s
    /\ elapsed (out r) = 0.
Proof.
  intros W s r. subst r. repeat split.
  apply init_gpio_other_words.
Qed.

Lemma init_gpio_frame_witness :
  regs (st (init_gpio idle_world full_block)) GPSET0
  = regs full_block GPSET0.
Proof.
  apply (init_gpio_frame idle_world full_block); discriminate.
Defined.

Lemma u32_testbit_any (z i : Z) :
  0 <= i -> Z.testbit (u32 z) i = (i <? 32) && Z.testbit z i.
Proof.
  intros Hi. unfold u32. destruct (Z.ltb_spec i 32).
  - rewrite Z.mod_pow2_bits_low by lia. reflexivity.
  - rewrite Z.mod_pow2_bits_high by lia. reflexivity.
Qed.

(** A word that was masked and or-ed with 32-bit constants is not
    changed by masking and or-ing it again. *)
Lemma mask_or_twice (x m c : Z) :
  0 <= m < 2 ^ 32 -> 0 <= c < 2 ^ 32 ->
  Z.lor (Z.land (u32 (Z.lor (Z.land (u32 x) m) c)) m) c
  = Z.lor (Z.land (u32 x) m) c.
Proof.
  intros Hm Hc. apply Z.bits_inj'. intros i Hi.
  rewrite !Z.lor_spec, !Z.land_spec, !u32_testbit_any by assumption.
  rewrite !Z.lor_spec, !Z.land_spec, !u32_testbit_any by assumption.
  destruct (Z.ltb_spec i 32) as [Hlt|Hge].
  - cbn [andb].
    destruct (Z.testbit x i), (Z.testbit m i), (Z.testbit c i); reflexivity.
  - cbn [andb]. reflexivity.
Qed.

Lemma mask_twice (x m : Z) :
  Z.land (u32 (Z.land (u32 x) m)) m = Z.land (u32 x) m.
Proof.
  apply Z.bits_inj'. intros i Hi.
  rewrite !Z.land_spec, !u32_testbit_any by assumption.
  rewrite !Z.land_spec, !u32_testbit_any by assumption.
  destruct (i <? 32), (Z.testbit x i), (Z.testbit m i); reflexivity.
Qed.

(** Running [init_gpio] a second time leaves the register block as the
    first run left it, whatever the block held before and whatever the
    environment does. *)
Theorem init_gpio_idempotent :
  forall (W W' : world) (s : state) (offset : Z),
    regs (st (init_gpio W' (st (init_gpio W s)))) offset
    = regs (st (init_gpio W s)) offset.
Proof.
  intros W W' s offset.
  set (s1 := st (init_gpio W s)).
  destruct (Z.eq_dec offset GPCLR0) as [->|Hc]; [reflexivity|].
  destruct (Z.eq_dec offset GPFSEL2) as [->|H2].
  - rewrite init_gpio_fsel2. subst s1. rewrite init_gpio_fsel2.
    apply mask_twice.
  - destruct (Z.eq_dec offset GPFSEL1) as [->|H1].
    + rewrite init_gpio_fsel1. subst s1. rewrite init_gpio_fsel1.
      apply mask_or_twice; split; (discriminate || reflexivity).
    + apply init_gpio_other_words; assumption.
Qed.

(** ** The latch, pin by pin *)

Lemma is_led_pin_false (pin : Z) :
  is_led_pin pin = false ->
  pin <> 10 /\ pin <> 11 /\ pin <> 13.
Proof.
  unfold is_led_pin, RED_LED, YELLOW_LED, GREEN_LED. intros H.
  apply orb_false_iff in H. destruct H as [H Hg].
  apply orb_false_iff in H. destruct H as [Hr Hy].
  apply Z.eqb_neq in Hr, Hy, Hg. auto.
Qed.

(** A write of an LED mask leaves every other pin of the latch as it
    was. *)
Lemma pin_effect_other_pins (e : event) (pins pin : Z) :
  led_write_ok e = true -> 0 <= pin -> is_led_pin pin = false ->
  Z.testbit (pin_effect e pins) pin = Z.testbit pins pin.
Proof.
  intros Hok Hpin Hled.
  destruct e as [ | | | | |offset value| | ]; try reflexivity.
  unfold pin_effect.
  destruct (offset =? GPSET0) eqn:Es; [|destruct (offset =? GPCLR0) eqn:Ec];
    [| |reflexivity].
  - apply Z.eqb_eq in Es.
    destruct (led_write_ok_masks offset value Hok (or_introl Es))
      as (_ & _ & Hbits).
    apply is_led_pin_false in Hled. destruct Hled as (Hr & Hy & Hg).
    rewrite Z.lor_spec, Hbits by assumption. apply orb_false_r.
  - apply Z.eqb_eq in Ec.
    destruct (led_write_ok_masks offset value Hok (or_intror Ec))
      as (_ & _ & Hbits).
    apply is_led_pin_false in Hled. destruct Hled as (Hr & Hy & Hg).
    rewrite Z.ldiff_spec, Hbits by assumption. apply andb_true_r.
Qed.

Lemma pins_after_other_pins (tr : list event) :
  forall pins pin,
    forallb led_write_ok tr = true -> 0 <= pin -> is_led_pin pin = false ->
    Z.testbit (pins_after pins tr) pin = Z.testbit pins pin.
Proof.
  induction tr as [|e tr IH]; intros pins pin Hok Hpin Hled; [reflexivity|].
  cbn [forallb] in Hok. apply andb_true_iff in Hok. destruct Hok as [He Ht].
  cbn [pins_after fold_left].
  change (fold_left (fun p e => pin_effect e p) tr (pin_effect e pins))
    with (pins_after (pin_effect e pins) tr).
  rewrite IH by assumption. now apply pin_effect_other_pins.
Qed.

Lemma forallb_firstn {A} (f : A -> bool) (n : nat) (l : list A) :
  forallb f l = true -> forallb f (firstn n l) = true.
Proof.
  revert n; induction l as [|a l IH]; intros [|n] H; try reflexivity.
  cbn [forallb firstn] in *. apply andb_true_iff in H.
  destruct H as [Ha Hl]. now rewrite Ha, IH.
Qed.

(** [init_gpio] leaves the three LEDs off and every other pin of the
    latch as it was, whatever the latch and the register block held. *)
Theorem init_gpio_latch :
  forall (W : world) (s : state) (pins pin : Z),
    0 <= pin ->
    Z.testbit (pins_after pins (out (init_gpio W s))) pin
    = negb (is_led_pin pin) && Z.testbit pins pin.
Proof.
  intros W s pins pin Hpin.
  destruct (is_led_pin pin) eqn:Hled; cbn [negb andb].
  - pose proof (init_gpio_leds_off W s pins) as Hoff.
    unfold leds_of, off in Hoff. injection Hoff as Hr Hy Hg.
    unfold is_led_pin in Hled.
    apply orb_true_iff in Hled. destruct Hled as [Hled|Hled].
    + apply orb_true_iff in Hled. destruct Hled as [Hled|Hled];
        apply Z.eqb_eq in Hled; subst pin; assumption.
    + apply Z.eqb_eq in Hled; subst pin; assumption.
  - apply pins_after_other_pins; [reflexivity|assumption|assumption].
Qed.

Lemma init_gpio_latch_witness :
  Z.testbit (pins_after (Z.ones 32)
               (out (init_gpio idle_world full_block))) 13
  = negb (is_led_pin 13) && Z.testbit (Z.ones 32) 13
  /\ Z.testbit (pins_after (Z.ones 32)
                  (out (init_gpio idle_world full_block))) 26
     = negb (is_led_pin 26) && Z.testbit (Z.ones 32) 26.
Proof.
  split.
  - apply (init_gpio_latch idle_world full_block (Z.ones 32) 13).
    discriminate.
  - apply (init_gpio_latch idle_world full_block (Z.ones 32) 26).
    discriminate.
Defined.

(** Each LED helper drives its own pin and no other: [red_on],
    [yellow_on] and [green_on] raise bit 10, 11 and 13 of the latch,
    [red_off], [yellow_off] and [green_off] lower it, and every other
    bit stays as it was. *)
Theorem led_helpers_drive_one_pin :
  forall (s : state) (pins pin : Z),
    0 <= pin ->
    Z.testbit (pins_after pins (out (red_on s))) pin
      = (pin =? RED_LED) || Z.testbit pins pin
    /\ Z.testbit (pins_after pins (out (red_off s))) pin
       = negb (pin =? RED_LED) && Z.testbit pins pin
    /\ Z.testbit (pins_after pins (out (yellow_on s))) pin
       = (pin =? YELLOW_LED) || Z.testbit pins pin
    /\ Z.testbit (pins_after pins (out (yellow_off s))) pin
       = negb (pin =? YELLOW_LED) && Z.testbit pins pin
    /\ Z.testbit (pins_after pins (out (green_on s))) pin
       = (pin =? GREEN_LED) || Z.testbit pins pin
    /\ Z.testbit (pins_after pins (out (green_off s))) pin
       = negb (pin =? GREEN_LED) && Z.testbit pins pin.
Proof.
  intros s pins pin Hpin.
  unfold red_on, red_off, yellow_on, yellow_off, green_on, green_off,
    RED_LED, YELLOW_LED, GREEN_LED.
  cbn [store out pins_after fold_left pin_effect].
  change (GPSET0 =? GPSET0) with true. change (GPCLR0 =? GPSET0) with false.
  change (GPCLR0 =? GPCLR0) with true. cbv iota.
  change PIN10_MASK with (2 ^ 10). change PIN11_MASK with (2 ^ 11).
  change PIN13_MASK with (2 ^ 13).
  rewrite !Z.lor_spec, !Z.ldiff_spec, !Z.pow2_bits_eqb by lia.
  rewrite (Z.eqb_sym 10 pin), (Z.eqb_sym 11 pin), (Z.eqb_sym 13 pin).
  repeat split; (apply orb_comm || apply andb_comm).
Qed.

Lemma led_helpers_drive_one_pin_witness :
  Z.testbit (pins_after 0 (out (red_on boot_state))) 10
  = (10 =? RED_LED) || Z.testbit 0 10.
Proof.
  apply (led_helpers_drive_one_pin boot_state 0 10). discriminate.
Defined.

(** ** Setting up the mapping *)

(** [setup_gpio] returns 0 when [open] gives a descriptor and [mmap]
    succeeds, and -1 otherwise.  It closes the descriptor [open] gave
    exactly once, whether or not [mmap] succeeds, and closes nothing
    when [open] failed; it passes that descriptor to [mmap].  It prints
    the [open] message only when [open] failed and the [mmap] message
    only when [mmap] failed, touches no register and leaves the state
    alone. *)
Theorem setup_gpio_result :
  forall (W : world) (s : state),
    let r := setup_gpio W s in
    let opened := negb (open_result W <? 0) in
    val r = (if opened && mmap_ok W then 0 else -1)
    /\ closed (out r) = (if opened then [open_result W] else [])
    /\ filter (fun e => match e with EMmap _ _ _ _ => true | _ => false end)
              (out r)
       = (if opened
          then [EMmap BLOCK_SIZE (open_result W) GPIO_BASE (mmap_ok W)]
          else [])
    /\ occurrences "Error: can't open /dev/mem (try running with sudo)\n"
                   (out r)
       = (if opened then 0 else 1)%nat
    /\ occurrences "Error: mmap failed\n" (out r)
       = (if opened && negb (mmap_ok W) then 1 else 0)%nat
    /\ accessed (out r) = []
    /\ st r = s.
Proof.
  intros W s r opened. subst r opened.
  destruct (open_result W <? 0) eqn:Ho; cbn [negb andb].
  - rewrite (setup_gpio_open_fails W s Ho). repeat split.
  - destruct (mmap_ok W) eqn:Hm; cbn [negb].
    + rewrite (setup_gpio_ok W s Ho Hm). repeat split.
    + rewrite (setup_gpio_mmap_fails W s Ho Hm). repeat split.
Qed.

(** ** The wait, continued *)

Section WaitMore.

Variable W : world.

Lemma wait_loop_accessed (n : nat) :
  forall s, Forall (fun offset => offset = GPLEV0)
                   (accessed (out (wait_loop W n s))).
Proof.
  induction n as [|n IH]; intros s; [constructor|].
  rewrite wait_loop_step. cbv zeta.
  destruct (pressed_at W (clock s)); cbn [out accessed flat_map app].
  - repeat constructor.
  - constructor; [reflexivity|]. apply IH.
Qed.

Lemma wait_loop_access_ok (n : nat) :
  forall s, forallb access_ok (out (wait_loop W n s)) = true.
Proof.
  induction n as [|n IH]; intros s; [reflexivity|].
  rewrite wait_loop_step. cbv zeta.
  destruct (pressed_at W (clock s)); [reflexivity|].
  cbn [out forallb]. rewrite IH. reflexivity.
Qed.

Lemma wait_loop_polls_bound (n : nat) :
  forall s, polls (out (wait_loop W n s)) <= Z.of_nat n
            /\ (0 < Z.of_nat n -> 1 <= polls (out (wait_loop W n s))).
Proof.
  induction n as [|n IH]; intros s.
  - split; [discriminate | intros H; inversion H].
  - rewrite wait_loop_step. cbv zeta.
    destruct (pressed_at W (clock s)); cbn [out]; head_events.
    + split; lia.
    + destruct (IH (advance 100000 s)) as [Hle _].
      pose proof (polls_nonneg (out (wait_loop W n (advance 100000 s)))).
      split; lia.
Qed.

End WaitMore.

(** With a timeout of zero or less, [wait_for_button_or_timeout] does
    not read the button at all: it prints its two lines and returns at
    once, in the state it was called in. *)
Theorem wait_for_button_or_timeout_nonpositive :
  forall (W : world) (timeout_seconds : Z) (s : state),
    timeout_seconds <= 0 ->
    INT_MIN <= timeout_seconds * 10 ->
    wait_for_button_or_timeout W timeout_seconds s
    = mkResult tt s
        [EPrintf
           "Waiting for pedestrian button or timeout (%d seconds)...\n"
           [timeout_seconds];
         EPrintf "Timeout - changing lights...\n" []].
Proof.
  intros W t s Hle Hmin.
  rewrite (result_eta (wait_for_button_or_timeout W t s)).
  rewrite wait_for_button_or_timeout_out, wait_for_button_or_timeout_st.
  unfold int_mul.
  rewrite wrap_int_small by (unfold INT_MIN, INT_MAX in *; lia).
  replace (Z.to_nat (t * 10)) with 0%nat by lia.
  destruct (val (wait_for_button_or_timeout W t s)). reflexivity.
Qed.

Lemma wait_for_button_or_timeout_nonpositive_witness :
  wait_for_button_or_timeout (press_world 0) (-2) boot_state
  = mkResult tt boot_state
      [EPrintf "Waiting for pedestrian button or timeout (%d seconds)...\n"
               [-2];
       EPrintf "Timeout - changing lights...\n" []].
Proof.
  apply (wait_for_button_or_timeout_nonpositive (press_world 0) (-2)
           boot_state); discriminate.
Defined.

(** Whatever its argument and whatever the button does,
    [wait_for_button_or_timeout] writes no register and leaves the
    register block as it found it; the only register it reads is the
    level register; and time does not run backwards. *)
Theorem wait_for_button_or_timeout_frame :
  forall (W : world) (timeout_seconds : Z) (s : state),
    let r := wait_for_button_or_timeout W timeout_seconds s in
    regs (st r) = regs s
    /\ filter is_write (out r) = []
    /\ Forall (fun offset => offset = GPLEV0) (accessed (out r))
    /\ clock s <= clock (st r).
Proof.
  intros W t s r. subst r.
  rewrite wait_for_button_or_timeout_out, wait_for_button_or_timeout_st.
  split; [apply wait_loop_regs|].
  split; [cbn [filter is_write]; apply wait_loop_no_write|].
  split; [cbn [accessed flat_map app]; apply wait_loop_accessed|].
  rewrite wait_loop_clock.
  destruct (wait_loop_elapsed W (Z.to_nat (int_mul t 10)) s)
    as [->|(k & Hk & ->)]; lia.
Qed.

(** For a timeout of at least one second whose tenfold fits an [int],
    [wait_for_button_or_timeout] polls at least once and at most
    [10 * timeout_seconds] times, and it returns no sooner than the
    settle delay of 0.3 s and no later than 0.2 s after the timeout. *)
Theorem wait_for_button_or_timeout_bounds :
  forall (W : world) (timeout_seconds : Z) (s : state),
    1 <= timeout_seconds ->
    timeout_seconds * 10 <= INT_MAX ->
    let r := wait_for_button_or_timeout W timeout_seconds s in
    1 <= polls (out r) <= timeout_seconds * 10
    /\ 300000 <= elapsed (out r) <= timeout_seconds * 1000000 + 200000.
Proof.
  intros W t s H1 Hmax r. subst r.
  rewrite wait_for_button_or_timeout_out.
  unfold int_mul. rewrite wrap_int_small by (unfold INT_MAX in *; lia).
  rewrite polls_cons, elapsed_cons. cbn [is_poll duration].
  destruct (wait_loop_polls_bound W (Z.to_nat (t * 10)) s) as [Hle Hge].
  split; [lia|].
  destruct (wait_loop_elapsed W (Z.to_nat (t * 10)) s)
    as [->|(k & Hk & ->)]; lia.
Qed.

Lemma wait_for_button_or_timeout_bounds_witness :
  1 <= polls (out (wait_for_button_or_timeout (press_world 150000) 5
                     boot_state)) <= 5 * 10
  /\ 300000
     <= elapsed (out (wait_for_button_or_timeout (press_world 150000) 5
                        boot_state))
     <= 5 * 1000000 + 200000.
Proof.
  apply (wait_for_button_or_timeout_bounds (press_world 150000) 5
           boot_state); discriminate.
Defined.

(** ** The sequence and the button *)

Lemma no_write_no_pin_write (tr : list event) :
  filter is_write tr = [] -> filter is_pin_write tr = [].
Proof.
  induction tr as [|e tr IH]; [reflexivity|].
  cbn [filter]. destruct e; cbn [is_write is_pin_write]; try exact IH.
  discriminate.
Qed.

(** The button decides how long the sequence waits and nothing else:
    the register writes of [traffic_light_sequence], 26 of them, are the
    same in any two runs, and so are all events before the wait and all
    events after it. *)
Theorem sequence_writes_fixed :
  forall (W W' : world) (s s' : state),
    filter is_write (out (traffic_light_sequence W s))
    = filter is_write (out (traffic_light_sequence W' s'))
    /\ List.length (filter is_write (out (traffic_light_sequence W s)))
       = 26%nat
    /\ out (sequence_until_wait s) = out (sequence_until_wait s')
    /\ out (sequence_after_wait (st (button_wait W s)))
       = out (sequence_after_wait (st (button_wait W' s'))).
Proof.
  intros W W' s s'.
  rewrite !sequence_split, !button_wait_out, !filter_app.
  rewrite !wait_loop_no_write. repeat split.
Qed.

(** In two runs in which [open] and [mmap] succeed, the writes to the
    set and clear registers are the same, one after the other,
    whatever the button does, whatever the register block held and
    whatever the arguments are. *)
Theorem main_pin_writes_fixed :
  forall (W W' : world) (argc argc' : Z) (argv argv' : list string)
         (s s' : state),
    0 <= open_result W -> mmap_ok W = true ->
    0 <= open_result W' -> mmap_ok W' = true ->
    filter is_pin_write (out (main W argc argv s))
    = filter is_pin_write (out (main W' argc' argv' s')).
Proof.
  intros W W' argc argc' argv argv' s s' Ho Hm Ho' Hm'.
  apply Z.ltb_ge in Ho, Ho'.
  rewrite (main_ok_trace W argc argv s Ho Hm).
  rewrite (main_ok_trace W' argc' argv' s' Ho' Hm').
  rewrite !filter_app.
  rewrite !(no_write_no_pin_write (out (wait_loop _ _ _)))
    by apply wait_loop_no_write.
  reflexivity.
Qed.

Lemma main_pin_writes_fixed_witness :
  filter is_pin_write (out (main idle_world 1 ["traffic_lights"] boot_state))
  = filter is_pin_write
      (out (main (press_world 12000000) 2 ["traffic_lights"; "-v"]
              full_block)).
Proof.
  apply (main_pin_writes_fixed idle_world (press_world 12000000) 1 2
           ["traffic_lights"] ["traffic_lights"; "-v"] boot_state
           full_block);
    (discriminate || reflexivity).
Defined.

(** ** Register accesses of a run *)

Lemma access_ok_accessed (tr : list event) :
  forallb access_ok tr = true ->
  Forall (fun offset =>
            In offset [GPFSEL1; GPFSEL2; GPSET0; GPCLR0; GPLEV0]
            /\ 0 <= offset < BLOCK_WORDS)
         (accessed tr).
Proof.
  induction tr as [|e tr IH]; intros H; [constructor|].
  cbn [forallb] in H. apply andb_true_iff in H. destruct H as [He Ht].
  specialize (IH Ht).
  assert (Hoff : forall offset,
             ((offset =? GPFSEL1) || (offset =? GPFSEL2)
              || (offset =? GPSET0) || (offset =? GPCLR0)
              || (offset =? GPLEV0))
             && (0 <=? offset) && (offset <? BLOCK_WORDS) = true ->
             In offset [GPFSEL1; GPFSEL2; GPSET0; GPCLR0; GPLEV0]
             /\ 0 <= offset < BLOCK_WORDS).
  { intros offset H.
    apply andb_true_iff in H. destruct H as [H Hhi].
    apply andb_true_iff in H. destruct H as [H Hlo].
    apply Z.leb_le in Hlo. apply Z.ltb_lt in Hhi.
    split; [|lia].
    repeat (apply orb_true_iff in H; destruct H as [H|H]);
      apply Z.eqb_eq in H; subst offset; cbn [In]; tauto. }
  destruct e; cbn [accessed flat_map app]; try exact IH;
    (constructor; [apply Hoff; exact He | exact IH]).
Qed.

Lemma main_access_ok (W : world) (argc : Z) (argv : list string)
      (s : state) :
  forallb access_ok (out (main W argc argv s)) = true.
Proof.
  destruct (open_result W <? 0) eqn:Ho.
  - rewrite main_open_fails by assumption. reflexivity.
  - destruct (mmap_ok W) eqn:Hm.
    + rewrite (main_ok_trace W argc argv s Ho Hm).
      rewrite !forallb_app, wait_loop_access_ok. reflexivity.
    + rewrite main_mmap_fails by assumption. reflexivity.
Qed.

(** Every register access of a run of [main], read or write, goes to
    one of the five offsets [GPFSEL1], [GPFSEL2], [GPSET0], [GPCLR0]
    and [GPLEV0], and so stays inside the 1024 words of the mapped
    block; [GPFSEL0] is never touched. *)
Theorem main_accesses_in_block :
  forall (W : world) (argc : Z) (argv : list string) (s : state),
    Forall (fun offset =>
              In offset [GPFSEL1; GPFSEL2; GPSET0; GPCLR0; GPLEV0]
              /\ 0 <= offset < BLOCK_WORDS)
           (accessed (out (main W argc argv s))).
Proof.
  intros W argc argv s. apply access_ok_accessed, main_access_ok.
Qed.

(** At every moment of every run of [main], each pin of the latch
    other than 10, 11 and 13 is at the level it had when the program
    started: the program drives the three LEDs and nothing else. *)
Theorem main_other_pins_untouched :
  forall (W : world) (argc : Z) (argv : list string) (s : state)
         (pins0 : Z) (n : nat) (pin : Z),
    0 <= pin ->
    is_led_pin pin = false ->
    Z.testbit (pins_after pins0 (firstn n (out (main W argc argv s)))) pin
    = Z.testbit pins0 pin.
Proof.
  intros W argc argv s pins0 n pin Hpin Hled.
  apply pins_after_other_pins; [|assumption|assumption].
  apply forallb_firstn, main_led_writes_ok.
Qed.

Lemma main_other_pins_untouched_witness :
  Z.testbit
    (pins_after (Z.ones 32)
       (firstn 40 (out (main idle_world 1 ["traffic_lights"] boot_state))))
    26
  = Z.testbit (Z.ones 32) 26.
Proof.
  apply (main_other_pins_untouched idle_world 1 ["traffic_lights"]
           boot_state (Z.ones 32) 40 26).
  - discriminate.
  - reflexivity.
Defined.

(** ** How long a run takes *)

Lemma wait_loop_elapsed_bounds (W : world) (n : nat) (s : state) :
  (3 <= n)%nat ->
  300000 <= elapsed (out (wait_loop W n s)) <= 100000 * Z.of_nat n + 200000
  /\ 1 <= polls (out (wait_loop W n s)) <= Z.of_nat n.
Proof.
  intros Hn.
  destruct (wait_loop_polls_bound W n s) as [Hle Hge].
  split; [|lia].
  destruct (wait_loop_elapsed W n s) as [->|(k & Hk & ->)]; lia.
Qed.

(** A run of [main] in which [open] and [mmap] succeed takes between
    18.3 s and 23.2 s of simulated time - the 18 s of the fixed holds
    plus the button wait - and reads the level register at least once
    and at most 50 times. *)
Theorem main_run_time :
  forall (W : world) (argc : Z) (argv : list string) (s : state),
    0 <= open_result W ->
    mmap_ok W = true ->
    let r := main W argc argv s in
    elapsed (out r)
    = 18000000 + elapsed (out (button_wait W (st (init_gpio W s))))
    /\ 18300000 <= elapsed (out r) <= 23200000
    /\ 1 <= polls (out r) <= 50.
Proof.
  intros W argc argv s Ho Hm r. subst r. apply Z.ltb_ge in Ho.
  rewrite (main_ok_trace W argc argv s Ho Hm), button_wait_out.
  rewrite !elapsed_app, !polls_app, elapsed_until_wait, elapsed_after_wait.
  destruct (wait_loop_elapsed_bounds W 50
              (st (sequence_until_wait (st (init_gpio W s)))))
    as [He Hp]; [lia|].
  change (elapsed (out (init_gpio W s))) with 0.
  change (polls (out (init_gpio W s))) with 0.
  change (polls (out (sequence_until_wait (st (init_gpio W s))))) with 0.
  change (polls (out (sequence_after_wait
                        (st (button_wait W (st (init_gpio W s))))))) with 0.
  cbn [elapsed fold_right duration].
  rewrite !polls_cons. cbn [is_poll]. change (polls []) with 0.
  change (Z.of_nat 50) with 50 in *.
  repeat split; lia.
Qed.

Lemma main_run_time_witness :
  18300000
  <= elapsed (out (main (press_world 0) 1 ["traffic_lights"] boot_state))
  <= 23200000
  /\ 1 <= polls (out (main (press_world 0) 1 ["traffic_lights"] boot_state))
     <= 50.
Proof.
  apply (main_run_time (press_world 0) 1 ["traffic_lights"] boot_state).
  - discriminate.
  - reflexivity.
Defined.

(** ** The register block after a run *)

Lemma sequence_until_wait_regs (s : state) (offset : Z) :
  regs (st (sequence_until_wait s)) offset =
  if offset =? GPSET0 then PIN13_MASK
  else if offset =? GPCLR0 then PIN11_MASK
  else regs s offset.
Proof.
  unfold sequence_until_wait, phase1, phase2, phase3, phase4_leds.
  rewrite !st_bind. cbn [store sleep printf emit advance st regs].
  unfold update.
  destruct (offset =? GPSET0) eqn:Es; [reflexivity|].
  destruct (offset =? GPCLR0) eqn:Ec; reflexivity.
Qed.

Lemma sequence_after_wait_regs (s : state) (offset : Z) :
  regs (st (sequence_after_wait s)) offset =
  if offset =? GPCLR0 then PIN13_MASK
  else if offset =? GPSET0 then PIN10_MASK
  else regs s offset.
Proof.
  unfold sequence_after_wait, phase5, phase6, phase7.
  change (Z.to_nat YELLOW_BLINK_COUNT) with 3%nat.
  cbn [repeat_body]. unfold blink.
  rewrite !st_bind.
  cbn [store sleep usleep printf emit ret advance st regs].
  unfold update.
  destruct (offset =? GPCLR0) eqn:Ec; [reflexivity|].
  destruct (offset =? GPSET0) eqn:Es; reflexivity.
Qed.

Lemma traffic_light_sequence_st (W : world) (s : state) :
  st (traffic_light_sequence W s)
  = st (sequence_after_wait (st (button_wait W s))).
Proof.
  unfold traffic_light_sequence, sequence_until_wait, sequence_after_wait,
    button_wait, phase4.
  rewrite !st_bind. reflexivity.
Qed.

Lemma main_ok_st (W : world) (argc : Z) (argv : list string) (s : state) :
  (open_result W <? 0) = false -> mmap_ok W = true ->
  st (main W argc argv s)
  = st (all_off (st (traffic_light_sequence W (st (init_gpio W s))))).
Proof.
  intros Ho Hm. unfold main.
  rewrite !st_bind. cbn [printf emit val st out].
  rewrite (setup_gpio_ok W s Ho Hm). cbn [val st out].
  change (0 =? -1) with false. cbv iota.
  rewrite !st_bind. reflexivity.
Qed.

(** After a run of [main] in which [open] and [mmap] succeed, the
    register block differs from the one the program found in four
    words at most: the two function-select words hold what
    [init_gpio] wrote, the set register holds the mask of pin 10 (the
    last LED switched on was red) and the clear register the mask of
    pin 13 (the last write of the cleanup).  Every other word,
    [GPFSEL0] and [GPLEV0] among them, is as it was. *)
Theorem main_register_block :
  forall (W : world) (argc : Z) (argv : list string) (s : state),
    0 <= open_result W ->
    mmap_ok W = true ->
    let r := main W argc argv s in
    regs (st r) GPFSEL1 = regs (st (init_gpio W s)) GPFSEL1
    /\ regs (st r) GPFSEL2 = regs (st (init_gpio W s)) GPFSEL2
    /\ regs (st r) GPSET0 = PIN10_MASK
    /\ regs (st r) GPCLR0 = PIN13_MASK
    /\ (forall offset,
          offset <> GPFSEL1 -> offset <> GPFSEL2 ->
          offset <> GPSET0 -> offset <> GPCLR0 ->
          regs (st r) offset = regs s offset).
Proof.
  intros W argc argv s Ho Hm r. subst r. apply Z.ltb_ge in Ho.
  rewrite (main_ok_st W argc argv s Ho Hm).
  assert (Hregs : forall offset,
             regs (st (all_off (st (traffic_light_sequence W
                                      (st (init_gpio W s)))))) offset
             = if offset =? GPCLR0 then PIN13_MASK
               else if offset =? GPSET0 then PIN10_MASK
               else regs (st (init_gpio W s)) offset).
  { intros offset. unfold all_off. rewrite !st_bind.
    cbn [store st regs]. unfold update.
    destruct (offset =? GPCLR0) eqn:Ec; [reflexivity|].
    rewrite traffic_light_sequence_st, sequence_after_wait_regs, Ec.
    destruct (offset =? GPSET0) eqn:Es; [reflexivity|].
    unfold button_wait.
    rewrite wait_for_button_or_timeout_st, wait_loop_regs.
    rewrite sequence_until_wait_regs, Es, Ec. reflexivity. }
  repeat split; try (rewrite Hregs; reflexivity).
  intros offset H1 H2 Hs Hc. rewrite Hregs.
  rewrite (proj2 (Z.eqb_neq _ _) Hs), (proj2 (Z.eqb_neq _ _) Hc).
  apply init_gpio_other_words; assumption.
Qed.

Lemma main_register_block_witness :
  regs (st (main idle_world 1 ["traffic_lights"] full_block)) GPSET0
  = PIN10_MASK
  /\ regs (st (main idle_world 1 ["traffic_lights"] full_block)) GPLEV0
     = regs full_block GPLEV0.
Proof.
  destruct (main_register_block idle_world 1 ["traffic_lights"] full_block)
    as (_ & _ & Hset & _ & Hother).
  - discriminate.
  - reflexivity.
  - split; [exact Hset|]. apply Hother; discriminate.
Defined.

(** ** The blink loop for any count *)

Lemma repeat_body_step (n : nat) (body : M unit) (s : state) :
  out (repeat_body (S n) body s)
  = out (body s) ++ out (repeat_body n body (st (body s))).
Proof. reflexivity. Qed.

Lemma count_writes_app (offset value : Z) (a b : list event) :
  count_writes offset value (a ++ b)
  = (count_writes offset value a + count_writes offset value b)%nat.
Proof. unfold count_writes. now rewrite filter_app, length_app. Qed.

(** Whatever the number of rounds, the blink loop switches yellow on
    once and off once per round, takes one second per round, writes
    nothing else, and - if it runs at all - leaves yellow off; red and
    green stay as they were. *)
Theorem blink_rounds :
  forall (n : nat) (s : state) (l : leds),
    let tr := out (repeat_body n blink s) in
    count_writes GPSET0 PIN11_MASK tr = n
    /\ count_writes GPCLR0 PIN11_MASK tr = n
    /\ List.length (filter is_write tr) = (2 * n)%nat
    /\ elapsed tr = Z.of_nat n * 1000000
    /\ leds_after l tr
       = mkLeds (red l)
                (match n with O => yellow l | S _ => false end)
                (green l).
Proof.
  induction n as [|n IH]; intros s l tr; subst tr.
  - repeat split. destruct l; reflexivity.
  - rewrite repeat_body_step.
    destruct (IH (st (blink s)) (leds_after l (out (blink s))))
      as (Hs & Hc & Hw & He & Hl).
    rewrite !count_writes_app, filter_app, length_app, elapsed_app,
      leds_after_app, Hs, Hc, Hw, He, Hl.
    repeat split; try (cbn; lia).
    + rewrite Nat2Z.inj_succ.
      change (elapsed (out (blink s))) with 1000000. lia.
    + destruct l as [r y g], n; destruct r, y, g; reflexivity.
Qed.

(** ** A run that cannot map the registers *)

(** When [open] or [mmap] fails, [main] touches no register, not even
    to read one, does not sleep, never announces the sequence or any
    of its phases, and prints exactly one of the two error lines; the
    descriptor is closed if and only if [open] had succeeded. *)
Theorem main_failure_is_inert :
  forall (W : world) (argc : Z) (argv : list string) (s : state),
    open_result W < 0 \/ mmap_ok W = false ->
    let r := main W argc argv s in
    accessed (out r) = []
    /\ elapsed (out r) = 0
    /\ map (fun fmt => occurrences fmt (out r)) sequence_labels
       = [0; 0; 0; 0; 0; 0; 0; 0; 0]%nat
    /\ occurrences "GPIO initialized successfully.\n" (out r) = 0%nat
    /\ (occurrences "Error: can't open /dev/mem (try running with sudo)\n"
                    (out r)
        + occurrences "Error: mmap failed\n" (out r) = 1)%nat
    /\ closed (out r)
       = (if open_result W <? 0 then [] else [open_result W]).
Proof.
  intros W argc argv s Hfail r. subst r.
  destruct (open_result W <? 0) eqn:Ho.
  - rewrite main_open_fails by assumption. repeat split.
  - destruct Hfail as [Hlt|Hm]; [apply Z.ltb_ge in Ho; lia|].
    rewrite main_mmap_fails by assumption. repeat split.
Qed.

Lemma main_failure_is_inert_witness :
  accessed (out (main no_device_world 1 ["traffic_lights"] boot_state)) = []
  /\ accessed (out (main no_mapping_world 1 ["traffic_lights"] boot_state))
     = []
  /\ closed (out (main no_mapping_world 1 ["traffic_lights"] boot_state))
     = [3].
Proof.
  split; [|split].
  - apply (main_failure_is_inert no_device_world 1 ["traffic_lights"]
             boot_state).
    left. reflexivity.
  - apply (main_failure_is_inert no_mapping_world 1 ["traffic_lights"]
             boot_state).
    right. reflexivity.
  - apply (main_failure_is_inert no_mapping_world 1 ["traffic_lights"]
             boot_state).
    right. reflexivity.
Defined.
